(** * microMONET: the serial protocol client of [mimo.py]

    A shallow embedding of the class [MicroMONET] (mimo.py) and of the
    parts of the Python runtime and of pyserial its methods call, followed
    by the properties of the command/response protocol.

    - Python [str] is a list of Unicode code points, [bytes] a list of
      octets; [str.encode()] and [bytes.decode()] are the strict UTF-8 codec.
    - The serial port is a record: whether it is open, the octets the peer
      sends (an exhausted stream makes a read block for ever, the port has
      no timeout), and the trace of what the client did to it. The
      constructor of the class only opens the port: a world with
      [port_open] true is a client just constructed.
    - A method is a function from the world to an outcome (a value, an
      exception, a read that never returns) and the world afterwards.
    - [re.match] is modelled for the patterns of the source (literal
      characters and groups [([\d.]+)]), float() and the text of a float
      in full, with binary64 values as [spec_float] and every rounding
      done by the Standard Library's [SFdiv]. *)

From Stdlib Require Import List NArith ZArith Bool Lia String Ascii.
From Stdlib Require Import DecimalString.
From Stdlib Require Import Floats.SpecFloat.
Import ListNotations.

Local Open Scope N_scope.

(* ================================================================== *)
(** ** Text and octets *)

(** A Python [str]: its code points. *)
Definition str := list N.

(** A Python [bytes] object: octets, each below 256. *)
Definition bytes := list N.

(** An ASCII literal of the source as a [str]. *)
Definition text (s : string) : str :=
  map N_of_ascii (list_ascii_of_string s).

(** The line feed, ["\n"] in the source. *)
Definition LF : N := 10.

(** Code points a [str] can be encoded from: the Unicode scalar values
    (no surrogate, at most U+10FFFF). *)
Definition is_scalar (c : N) : bool :=
  (c <? 0xD800) || ((0xDFFF <? c) && (c <? 0x110000)).

(** UTF-8 of one code point. *)
Definition utf8_char (c : N) : bytes :=
  if c <? 0x80 then [c]
  else if c <? 0x800 then [0xC0 + c / 64; 0x80 + c mod 64]
  else if c <? 0x10000 then
    [0xE0 + c / 4096; 0x80 + (c / 64) mod 64; 0x80 + c mod 64]
  else
    [0xF0 + c / 262144; 0x80 + (c / 4096) mod 64;
     0x80 + (c / 64) mod 64; 0x80 + c mod 64].

Definition utf8 (s : str) : bytes := flat_map utf8_char s.

(** A line of text as the octets the wire carries: its encoding and a
    line feed. *)
Definition wire (line : str) : bytes := utf8 line ++ [LF].

(** A continuation octet, 10xxxxxx. *)
Definition is_cont (b : N) : bool := (0x80 <=? b) && (b <=? 0xBF).

(** [bytes.decode()]: strict UTF-8; [None] is UnicodeDecodeError (a stray
    or missing continuation octet, an overlong form, a surrogate, a value
    above U+10FFFF, an octet that starts no sequence). *)
Fixpoint utf8_decode (bs : bytes) : option str :=
  match bs with
  | [] => Some []
  | b0 :: t0 =>
    if b0 <? 0x80 then option_map (cons b0) (utf8_decode t0)
    else if (0xC2 <=? b0) && (b0 <=? 0xDF) then
      match t0 with
      | b1 :: t1 =>
        if is_cont b1
        then option_map (cons ((b0 - 0xC0) * 64 + (b1 - 0x80))) (utf8_decode t1)
        else None
      | _ => None
      end
    else if (0xE0 <=? b0) && (b0 <=? 0xEF) then
      match t0 with
      | b1 :: b2 :: t2 =>
        let c := (b0 - 0xE0) * 4096 + (b1 - 0x80) * 64 + (b2 - 0x80) in
        if is_cont b1 && is_cont b2 && (0x800 <=? c) && is_scalar c
        then option_map (cons c) (utf8_decode t2)
        else None
      | _ => None
      end
    else if (0xF0 <=? b0) && (b0 <=? 0xF4) then
      match t0 with
      | b1 :: b2 :: b3 :: t3 =>
        let c := (b0 - 0xF0) * 262144 + (b1 - 0x80) * 4096
                 + (b2 - 0x80) * 64 + (b3 - 0x80) in
        if is_cont b1 && is_cont b2 && is_cont b3
           && (0x10000 <=? c) && (c <? 0x110000)
        then option_map (cons c) (utf8_decode t3)
        else None
      | _ => None
      end
    else None
  end.

(** [str.isspace()] of one character: the code points Python's
    [str.strip()] removes. *)
Definition is_space (c : N) : bool :=
  ((0x09 <=? c) && (c <=? 0x0D)) || ((0x1C <=? c) && (c <=? 0x20))
  || (c =? 0x85) || (c =? 0xA0) || (c =? 0x1680)
  || ((0x2000 <=? c) && (c <=? 0x200A))
  || (c =? 0x2028) || (c =? 0x2029) || (c =? 0x202F) || (c =? 0x205F)
  || (c =? 0x3000).

Fixpoint lstrip (s : str) : str :=
  match s with
  | c :: t => if is_space c then lstrip t else s
  | [] => []
  end.

Definition rstrip (s : str) : str := rev (lstrip (rev s)).

(** [s.strip()]. *)
Definition strip (s : str) : str := rstrip (lstrip s).

Fixpoint startswith (s p : str) {struct p} : bool :=
  match p, s with
  | [], _ => true
  | a :: p', b :: s' => (a =? b) && startswith s' p'
  | _ :: _, [] => false
  end.

(** [needle in hay] on [str]. *)
Fixpoint contains (needle hay : str) : bool :=
  startswith hay needle ||
  match hay with
  | _ :: t => contains needle t
  | [] => false
  end.

(** [str(n)] for a Python [int]: decimal digits, a minus sign when negative. *)
Definition str_of_int (n : Z) : str :=
  text (NilZero.string_of_int (Z.to_int n)).

(* ================================================================== *)
(** ** The serial port and the outcome of a call *)

(** Exceptions the methods raise or let through. *)
Inductive exn :=
| ValueError (msg : str)
| UnicodeEncodeError
| UnicodeDecodeError
| PortNotOpenError.

(** What the client did, in order. *)
Inductive event :=
| Wrote (data : bytes)          (* a write the port accepted *)
| ReadLine (data : bytes)       (* a read that returned [data] *)
| ReadBlocked (data : bytes)    (* a read that took [data] and never returned *)
| RefusedWrite (data : bytes)   (* a write called on the closed port *)
| RefusedRead                   (* a read called on the closed port *)
| ClosedPort                    (* the port was closed *)
| Printed (line : str).         (* a line on standard output *)

Record world := World {
  port_open : bool;
  rx : bytes;            (* what the peer sends, not yet read *)
  trace : list event
}.

Inductive outcome (A : Type) :=
| Ret (a : A)        (* the call returned *)
| Exc (e : exn)      (* the call raised *)
| Hang               (* the call blocks for ever in a read *)
| Fuel.              (* a loop of the model ran out of steps *)
Arguments Ret {A} a.
Arguments Exc {A} e.
Arguments Hang {A}.
Arguments Fuel {A}.

Definition M (A : Type) := world -> outcome A * world.

Definition ret {A} (a : A) : M A := fun w => (Ret a, w).
Definition raise {A} (e : exn) : M A := fun w => (Exc e, w).
Definition bind {A B} (c : M A) (k : A -> M B) : M B :=
  fun w =>
    match c w with
    | (Ret a, w') => k a w'
    | (Exc e, w') => (Exc e, w')
    | (Hang, w') => (Hang, w')
    | (Fuel, w') => (Fuel, w')
    end.

Notation "x <- c ;; k" := (bind c (fun x => k))
  (at level 61, c at next level, right associativity).
Notation "c ;; k" := (bind c (fun _ => k))
  (at level 61, right associativity).

Definition log (e : event) (w : world) : world :=
  World (port_open w) (rx w) (trace w ++ [e]).

(** [s.encode()], raising on a lone surrogate. *)
Definition encode (s : str) : M bytes :=
  if forallb is_scalar s then ret (utf8 s) else raise UnicodeEncodeError.

(** [b.decode()]. *)
Definition decode (b : bytes) : M str :=
  match utf8_decode b with
  | Some s => ret s
  | None => raise UnicodeDecodeError
  end.

(** [print(line)]. *)
Definition print (line : str) : M unit :=
  fun w => (Ret tt, log (Printed line) w).

(** The octets up to and including the first [expected], and the rest. *)
Fixpoint split_until (expected : N) (bs : bytes) : option (bytes * bytes) :=
  match bs with
  | [] => None
  | b :: t =>
    if b =? expected then Some ([b], t)
    else match split_until expected t with
         | Some (l, r) => Some (b :: l, r)
         | None => None
         end
  end.

(** [AioSerial.write_async(data)]: pyserial refuses a closed port. *)
Definition write_async (data : bytes) : M N :=
  fun w =>
    if port_open w
    then (Ret (N.of_nat (List.length data)), log (Wrote data) w)
    else (Exc PortNotOpenError, log (RefusedWrite data) w).

(** [AioSerial.read_until_async(expected)] with a one-octet terminator and
    no timeout: the next octets up to and including [expected]. *)
Definition read_until_async (expected : N) : M bytes :=
  fun w =>
    if port_open w then
      match split_until expected (rx w) with
      | Some (line, rest) =>
        (Ret line, World true rest (trace w ++ [ReadLine line]))
      | None => (Hang, World true [] (trace w ++ [ReadBlocked (rx w)]))
      end
    else (Exc PortNotOpenError, log RefusedRead w).

(** [AioSerial.close()]: does nothing on a closed port. *)
Definition serial_close : M unit :=
  fun w =>
    if port_open w
    then (Ret tt, World false (rx w) (trace w ++ [ClosedPort]))
    else (Ret tt, w).

(* ================================================================== *)
(** ** The class MicroMONET: commands *)

Definition send_command (command : str) : M str :=
  data <- encode (command ++ [LF]) ;;
  write_async data ;;
  response <- read_until_async LF ;;
  response <- decode response ;;
  ret (strip response).

Definition READY : str := text "microMONET is ready for some stargazing!".

(** The [while True] loop of [wait_for_ready], [fuel] iterations of it. *)
Fixpoint wait_for_ready_loop (fuel : nat) : M unit :=
  match fuel with
  | O => fun w => (Fuel, w)
  | S fuel' =>
    response <- read_until_async LF ;;
    response <- decode response ;;
    let response := strip response in
    if contains READY response
    then print (text "Arduino is ready!")
    else wait_for_ready_loop fuel'
  end.

(** Every iteration reads at least one octet, so one more iteration than
    there are octets is enough. *)
Definition wait_for_ready : M unit :=
  fun w => wait_for_ready_loop (S (List.length (rx w))) w.

Definition set_speed (speed : Z) : M unit :=
  if ((speed <? 1) || (speed >? 15))%Z
  then raise (ValueError (text "Speed must be between 1 and 15 RPM."))
  else send_command (text "SET_SPEED " ++ str_of_int speed) ;; ret tt.

Definition led_on : M unit := send_command (text "LED_ON") ;; ret tt.
Definition led_off : M unit := send_command (text "LED_OFF") ;; ret tt.
Definition ccd_on : M unit := send_command (text "CCD_ON") ;; ret tt.
Definition ccd_off : M unit := send_command (text "CCD_OFF") ;; ret tt.
Definition abort_slew : M unit := send_command (text "ABORT") ;; ret tt.

Definition close : M unit := serial_close.

(* ================================================================== *)
(** ** The runtime's regular expressions and float() *)

(** The zero digits of the decimal digits (category Nd) of Unicode 14.0,
    the character database of CPython 3.11: each starts a run of ten
    consecutive code points, the digits zero to nine of one script. *)
Definition DECIMAL_ZEROS : list N :=
  [0x30; 0x660; 0x6F0; 0x7C0; 0x966; 0x9E6; 0xA66; 0xAE6; 0xB66; 0xBE6;
   0xC66; 0xCE6; 0xD66; 0xDE6; 0xE50; 0xED0; 0xF20; 0x1040; 0x1090;
   0x17E0; 0x1810; 0x1946; 0x19D0; 0x1A80; 0x1A90; 0x1B50; 0x1BB0;
   0x1C40; 0x1C50; 0xA620; 0xA8D0; 0xA900; 0xA9D0; 0xA9F0; 0xAA50;
   0xABF0; 0xFF10; 0x104A0; 0x10D30; 0x11066; 0x110F0; 0x11136;
   0x111D0; 0x112F0; 0x11450; 0x114D0; 0x11650; 0x116C0; 0x11730;
   0x118E0; 0x11950; 0x11C50; 0x11D50; 0x11DA0; 0x16A60; 0x16AC0;
   0x16B50; 0x1D7CE; 0x1D7D8; 0x1D7E2; 0x1D7EC; 0x1D7F6; 0x1E140;
   0x1E2F0; 0x1E950; 0x1FBF0].

(** The digit a character stands for, when it is a decimal digit. *)
Definition decimal_value (c : N) : option N :=
  match find (fun z => (z <=? c) && (c <? z + 10)) DECIMAL_ZEROS with
  | Some z => Some (c - z)
  | None => None
  end.

(** [\d] in a [str] pattern. *)
Definition is_decimal (c : N) : bool :=
  match decimal_value c with Some _ => true | None => false end.

(** [[\d.]]. *)
Definition FULL_STOP : N := 46.
Definition digit_or_dot (c : N) : bool := is_decimal c || (c =? FULL_STOP).

(** The patterns of the source are made of two things: a literal
    character, and a capture group of one or more characters of a class,
    [([...]+)]. *)
Inductive item :=
| Lit (c : N)
| Field (cls : N -> bool).

Definition lit (s : string) : list item := map Lit (text s).

Fixpoint run_length (cls : N -> bool) (s : str) : nat :=
  match s with
  | c :: t => if cls c then S (run_length cls t) else O
  | [] => O
  end.

(** A greedy [+]: the longest run first, then one character less, down to
    one character, until the rest of the pattern [k] matches. *)
Fixpoint backtrack (k : str -> option (list str)) (s : str) (n : nat)
  : option (list str) :=
  match n with
  | O => None
  | S m =>
    match k (skipn n s) with
    | Some groups => Some (firstn n s :: groups)
    | None => backtrack k s m
    end
  end.

(** [re.match(pattern, s)]: the pattern must match at the start of [s];
    what follows the match is free. The result lists the groups. *)
Fixpoint re_match (pattern : list item) (s : str) : option (list str) :=
  match pattern with
  | [] => Some []
  | Lit c :: rest =>
    match s with
    | c' :: s' => if c' =? c then re_match rest s' else None
    | [] => None
    end
  | Field cls :: rest => backtrack (re_match rest) s (run_length cls s)
  end.

(** [match.group(i)], from 1. *)
Definition group (m : list str) (i : nat) : str := nth (pred i) m [].

(** A Python [float]: an IEEE 754 binary64 value. *)
Definition float := spec_float.
Definition prec : Z := 53.
Definition emax : Z := 1024.

Definition is_ascii_digit (c : N) : bool := (48 <=? c) && (c <=? 57).

Fixpoint span (p : N -> bool) (s : str) : str * str :=
  match s with
  | c :: t =>
    if p c then let (a, b) := span p t in (c :: a, b) else ([], s)
  | [] => ([], [])
  end.

(** The number a run of ASCII digits writes. *)
Definition digits_value (ds : str) : N :=
  fold_left (fun acc c => acc * 10 + (c - 48)) ds 0.

(** The binary64 nearest to [n * 10^e10] (ties to even), with the sign
    [neg]: the quotient of two integers, rounded once. *)
Definition float_of_decimal (neg : bool) (n : N) (e10 : Z) : float :=
  match n with
  | N0 => S754_zero neg
  | Npos p =>
    let num := (p * Z.to_pos (10 ^ Z.max 0 e10))%positive in
    let den := Z.to_pos (10 ^ Z.max 0 (- e10)) in
    SFdiv prec emax (S754_finite neg num 0) (S754_finite false den 0)
  end.

(** float() first turns every non-ASCII decimal digit into its ASCII
    digit and every non-ASCII space into a space; another non-ASCII
    character becomes a question mark, which no number contains. *)
Definition to_ascii_decimal (c : N) : N :=
  if c <? 128 then c
  else if is_space c then 32
  else match decimal_value c with
       | Some d => 48 + d
       | None => 63
       end.

Definition UNDERSCORE : N := 95.

(** Underscores may stand between two digits only; they are dropped. *)
Fixpoint drop_underscores (prev : N) (s : str) : option str :=
  match s with
  | [] => if prev =? UNDERSCORE then None else Some []
  | c :: t =>
    if c =? UNDERSCORE then
      if is_ascii_digit prev then drop_underscores c t else None
    else if (prev =? UNDERSCORE) && negb (is_ascii_digit c) then None
    else option_map (cons c) (drop_underscores c t)
  end.

(** The C locale's [isspace], which float() strips. *)
Definition is_c_space (c : N) : bool :=
  ((9 <=? c) && (c <=? 13)) || (c =? 32).

Definition lower (c : N) : N :=
  if (65 <=? c) && (c <=? 90) then c + 32 else c.

Definition eq_nocase (s : str) (l : string) : bool :=
  if list_eq_dec N.eq_dec (map lower s) (text l) then true else false.

(** An optional sign: whether it is a minus, and what follows it. *)
Definition take_sign (s : str) : bool * str :=
  match s with
  | 43 :: t => (false, t)
  | 45 :: t => (true, t)
  | _ => (false, s)
  end.

(** The exponent part: empty, or [e] or [E], an optional sign and at
    least one digit, up to the end of the text. *)
Definition exponent_part (s : str) : option Z :=
  match s with
  | [] => Some 0%Z
  | c :: t =>
    if (c =? 101) || (c =? 69) then
      let (eneg, t1) := take_sign t in
      match span is_ascii_digit t1 with
      | ((_ :: _) as ds, []) =>
        let e := Z.of_N (digits_value ds) in
        Some (if eneg then (- e)%Z else e)
      | _ => None
      end
    else None
  end.

(** A float literal, all of [s]: sign, then [inf], [infinity] or [nan] in
    any case, or digits with at most one point and at least one digit, and
    an optional exponent. *)
Definition parse_float (s : str) : option float :=
  let (neg, body) := take_sign s in
  if eq_nocase body "inf" || eq_nocase body "infinity"
  then Some (S754_infinity neg)
  else if eq_nocase body "nan" then Some S754_nan
  else
    let (ip, s1) := span is_ascii_digit body in
    let (fp, s2) :=
      match s1 with
      | c :: t => if c =? FULL_STOP then span is_ascii_digit t else ([], s1)
      | [] => ([], s1)
      end in
    match ip ++ fp with
    | [] => None
    | ds =>
      match exponent_part s2 with
      | Some e =>
        Some (float_of_decimal neg (digits_value ds)
                (e - Z.of_nat (List.length fp)))
      | None => None
      end
    end.

Definition c_strip (s : str) : str :=
  let s1 := snd (span is_c_space s) in
  rev (snd (span is_c_space (rev s1))).

(** The value of [float(s)], [None] where it raises ValueError. *)
Definition float_of_str (s : str) : option float :=
  let s1 := map to_ascii_decimal s in
  match (if existsb (N.eqb UNDERSCORE) s1
         then drop_underscores 0 s1 else Some s1) with
  | Some s2 => parse_float (c_strip s2)
  | None => None
  end.

Definition APOSTROPHE : N := 39.

(** [float(s)]. The message quotes [s] the way [repr] writes a text that
    has no quote, no backslash and no unprintable character in it. *)
Definition py_float (s : str) : M float :=
  match float_of_str s with
  | Some x => ret x
  | None =>
    raise (ValueError (text "could not convert string to float: "
                         ++ [APOSTROPHE] ++ s ++ [APOSTROPHE]))
  end.

(** Structural equality of floats (not the IEEE comparison: a NaN is
    equal to itself, the two zeros differ). *)
Definition same_float (x y : float) : bool :=
  match x, y with
  | S754_nan, S754_nan => true
  | S754_infinity a, S754_infinity b => Bool.eqb a b
  | S754_zero a, S754_zero b => Bool.eqb a b
  | S754_finite a m e, S754_finite b m' e' =>
    Bool.eqb a b && Pos.eqb m m' && Z.eqb e e'
  | _, _ => false
  end.

(** float() reads [t] back as [x]. *)
Definition reads_back (t : str) (x : float) : bool :=
  match float_of_str t with
  | Some y => same_float y x
  | None => false
  end.

(** The decimal digits of [n], most significant first. *)
Definition digits_of (n : N) : str :=
  text (NilZero.string_of_uint (N.to_uint n)).

Definition ZERO : N := 48.

Fixpoint lstrip_zeros (s : str) : str :=
  match s with
  | c :: t => if c =? ZERO then lstrip_zeros t else s
  | [] => []
  end.

(** Without its trailing zeros; a text of zeros keeps none. *)
Definition rstrip_zeros (s : str) : str := rev (lstrip_zeros (rev s)).

(** The text of [repr] for the digits [ds] and the position [decpt] of
    the decimal point after the first [decpt] digits (the value is
    [0.ds * 10^decpt]): scientific notation when [decpt <= -4] or
    [decpt > 16], else positional with at least one digit on each side. *)
Definition layout (ds : str) (decpt : Z) : str :=
  let n := Z.of_nat (List.length ds) in
  if ((decpt <=? -4) || (decpt >? 16))%Z then
    let e := (decpt - 1)%Z in
    let es := digits_of (Z.to_N (Z.abs e)) in
    firstn 1 ds
    ++ (if (1 <? n)%Z then FULL_STOP :: skipn 1 ds else [])
    ++ text "e" ++ (if (e <? 0)%Z then text "-" else text "+")
    ++ (if (List.length es <? 2)%nat then ZERO :: es else es)
  else if (decpt <=? 0)%Z then
    text "0." ++ repeat ZERO (Z.to_nat (- decpt)) ++ ds
  else if (n <=? decpt)%Z then
    ds ++ repeat ZERO (Z.to_nat (decpt - n)) ++ text ".0"
  else
    firstn (Z.to_nat decpt) ds ++ FULL_STOP :: skipn (Z.to_nat decpt) ds.

(** The least [k], from [k0] on and within [fuel] steps, such that
    [num / den < 10^k]. *)
Fixpoint decimal_exponent (fuel : nat) (num den : Z) (k0 : Z) : Z :=
  match fuel with
  | O => k0
  | S fuel' =>
    if (num * 10 ^ Z.max 0 (- k0) <? den * 10 ^ Z.max 0 k0)%Z then k0
    else decimal_exponent fuel' num den (k0 + 1)
  end.

(** A decimal exponent not above the one of [num / den], from the sizes
    in bits ([1233 / 4096] is just below the logarithm of 2 in base 10). *)
Definition decimal_exponent_below (num den : Z) : Z :=
  ((Z.log2 num - Z.log2 den) * 1233 / 4096 - 2)%Z.

(** The text of the number [n * 10^e10] ([0 < n]), without the trailing
    zeros of [n]. *)
Definition candidate_text (n : Z) (e10 : Z) : str :=
  let ds := digits_of (Z.to_N n) in
  layout (rstrip_zeros ds) (e10 + Z.of_nat (List.length ds)).

(** The two decimals of [p] significant digits around [num / den], which
    lies in [[10^(k-1), 10^k)]: the one float() reads back as [x], the
    nearer one when both are, the one whose last digit is even when they
    are as near. *)
Definition candidate (x : float) (num den k : Z) (p : Z) : option str :=
  let e10 := (k - p)%Z in
  let snum := (num * 10 ^ Z.max 0 (- e10))%Z in
  let sden := (den * 10 ^ Z.max 0 e10)%Z in
  let lo := (snum / sden)%Z in
  let hi := (lo + 1)%Z in
  let tlo := candidate_text lo e10 in
  let thi := candidate_text hi e10 in
  let prefer_lo :=
    match (2 * snum ?= (2 * lo + 1) * sden)%Z with
    | Lt => true
    | Eq => Z.even lo
    | Gt => false
    end in
  match reads_back tlo x, reads_back thi x with
  | true, true => Some (if prefer_lo then tlo else thi)
  | true, false => Some tlo
  | false, true => Some thi
  | false, false => None
  end.

(** The first of [p], [p + 1], ..., [fuel] of them, to have a candidate. *)
Fixpoint shortest (fuel : nat) (x : float) (num den k : Z) (p : Z)
  : option str :=
  match fuel with
  | O => None
  | S fuel' =>
    match candidate x num den k p with
    | Some t => Some t
    | None => shortest fuel' x num den k (p + 1)
    end
  end.

(** [repr] of the positive finite float [m * 2^e]: the shortest decimal
    that float() reads back as it. Seventeen significant digits tell any
    two binary64 values apart, so the search ends by then for every
    binary64 value; a triple that is no binary64 value (a mantissa of
    more than 53 bits, an exponent out of range) has no text, and gets
    the one of a NaN. *)
Definition repr_positive (m : positive) (e : Z) : str :=
  let num := (Z.pos m * 2 ^ Z.max 0 e)%Z in
  let den := (2 ^ Z.max 0 (- e))%Z in
  let k := decimal_exponent 8 num den (decimal_exponent_below num den) in
  match shortest 17 (S754_finite false m e) num den k 1 with
  | Some t => t
  | None => text "nan"
  end.

(** [repr(x)] of a float, which is also [str(x)] and what an f-string
    writes for [{x}]. *)
Definition float_repr (x : float) : str :=
  match x with
  | S754_nan => text "nan"
  | S754_infinity neg => (if neg then text "-" else []) ++ text "inf"
  | S754_zero neg => (if neg then text "-" else []) ++ text "0.0"
  | S754_finite neg m e =>
    (if neg then text "-" else []) ++ repr_positive m e
  end.

(* ================================================================== *)
(** ** The class MicroMONET: position and readings *)

Definition NUMBER : item := Field digit_or_dot.

(** [r"ALT: ([\d.]+) AZ: ([\d.]+)"] *)
Definition RE_POSITION : list item :=
  lit "ALT: " ++ [NUMBER] ++ lit " AZ: " ++ [NUMBER].

(** [r"Aborted at ALT: ([\d.]+) AZ: ([\d.]+)"] *)
Definition RE_ABORTED : list item :=
  lit "Aborted at ALT: " ++ [NUMBER] ++ lit " AZ: " ++ [NUMBER].

(** [r"Temperature: ([\d.]+)"] *)
Definition RE_TEMPERATURE : list item := lit "Temperature: " ++ [NUMBER].

(** [r"Humidity: ([\d.]+)"] *)
Definition RE_HUMIDITY : list item := lit "Humidity: " ++ [NUMBER].

Definition get_position : M (float * float) :=
  response <- send_command (text "GET_POS") ;;
  match re_match RE_POSITION response with
  | Some m =>
    altitude <- py_float (group m 1) ;;
    azimuth <- py_float (group m 2) ;;
    ret (altitude, azimuth)
  | None =>
    match re_match RE_ABORTED response with
    | Some m =>
      altitude <- py_float (group m 1) ;;
      azimuth <- py_float (group m 2) ;;
      ret (altitude, azimuth)
    | None =>
      raise (ValueError (text "Invalid position response: " ++ response))
    end
  end.

Definition get_temperature : M float :=
  response <- send_command (text "GET_TEMP") ;;
  match re_match RE_TEMPERATURE response with
  | Some m => py_float (group m 1)
  | None =>
    raise (ValueError (text "Invalid temperature response: " ++ response))
  end.

Definition get_humidity : M float :=
  response <- send_command (text "GET_HUMI") ;;
  match re_match RE_HUMIDITY response with
  | Some m => py_float (group m 1)
  | None =>
    raise (ValueError (text "Invalid humidity response: " ++ response))
  end.

Definition set_position (altitude azimuth : float) : M unit :=
  let command :=
    text "ALT:" ++ float_repr altitude ++ text " AZ:" ++ float_repr azimuth in
  send_command command ;; ret tt.

(* ================================================================== *)
(** ** The vocabulary of the properties *)

(** A line the peer may send: encodable text without a line feed in it. *)
Definition is_line (l : str) : Prop :=
  forallb is_scalar l = true /\ ~ In LF l.

Definition announces (l : str) : bool := contains READY (strip l).

(** The text of a numeric field, [[\d.]+]. *)
Definition numeric (f : str) : Prop :=
  f <> [] /\ forallb digit_or_dot f = true.

(** What follows a numeric field: no digit and no point comes first. *)
Definition ends_field (tail : str) : Prop := run_length digit_or_dot tail = O.

(** [r] is [prefix], a numeric field [a], [" AZ: "], a numeric field [z]
    and anything that ends the field. *)
Definition two_fields (prefix r a z : str) : Prop :=
  exists tail,
    r = prefix ++ a ++ text " AZ: " ++ z ++ tail
    /\ numeric a /\ numeric z /\ ends_field tail.

(** [r] is [prefix], a numeric field [a] and anything that ends the field. *)
Definition one_field (prefix r a : str) : Prop :=
  exists tail, r = prefix ++ a ++ tail /\ numeric a /\ ends_field tail.

(** The port is open and the peer sends [line] next, then [rest]. *)
Definition waiting (line : str) (rest : bytes) (w : world) : Prop :=
  port_open w = true /\ is_line line /\ rx w = wire line ++ rest.

(** The world after one exchange: the command written, the line read. *)
Definition exchanged (command line : str) (rest : bytes) (w : world) : world :=
  World true rest (trace w ++ [Wrote (wire command); ReadLine (wire line)]).

(** A text of characters below 256. *)
Definition small (s : str) : Prop := forall c, In c s -> c < 256.

(** The float written [n] with its last [places] digits after the point:
    [decimal 3990 2] is the float 39.90. *)
Definition decimal (n : N) (places : nat) : float :=
  float_of_decimal false n (- Z.of_nat places).

(** The degree sign, U+00B0. *)
Definition DEGREE : N := 176.

(** The line a peer writes for the position [(a, z)] with the default
    text of a float. *)
Definition position_line (a z : float) : str :=
  text "ALT: " ++ float_repr a ++ text " AZ: " ++ float_repr z.

(** A digit of ASCII or a point. *)
Definition plain (c : N) : bool := is_ascii_digit c || (c =? FULL_STOP).

(* ================================================================== *)
(** ** The vocabulary of the further properties *)

(** Commands sent one after the other, and their responses in order. *)
Fixpoint send_commands (commands : list str) : M (list str) :=
  match commands with
  | [] => ret []
  | c :: cs =>
    r <- send_command c ;;
    rs <- send_commands cs ;;
    ret (r :: rs)
  end.

(** What a sequence of exchanges adds to the trace. *)
Definition exchanges (commands lines : list str) : list event :=
  flat_map (fun cl => [Wrote (wire (fst cl)); ReadLine (wire (snd cl))])
    (combine commands lines).

(** An event that takes from the peer or writes on the screen: it sends
    nothing and leaves the port as it is. *)
Definition is_quiet (e : event) : bool :=
  match e with
  | ReadLine _ | ReadBlocked _ | RefusedRead | Printed _ => true
  | Wrote _ | RefusedWrite _ | ClosedPort => false
  end.

(** [w'] comes after [w]: the trace has grown at its end, what is left
    to read is an end of what was left. *)
Definition later (w w' : world) : Prop :=
  (exists events, trace w' = trace w ++ events)
  /\ (exists taken, rx w = taken ++ rx w').

(** From [w] to [w'] at most one line was taken from the peer: nothing,
    or the octets up to and including the first line feed, or, for want
    of a line feed, all of them. *)
Definition at_most_one_line (w w' : world) : Prop :=
  rx w' = rx w
  \/ (exists line, split_until LF (rx w) = Some (line, rx w'))
  \/ (split_until LF (rx w) = None /\ rx w' = []).

(** A continuation that leaves the world alone. *)
Definition untouched {A B : Type} (k : A -> M B) : Prop :=
  forall (a : A) (w : world), snd (k a w) = w.

(** The message of the ValueError float() raises on the text [a]. *)
Definition float_error (a : str) : exn :=
  ValueError (text "could not convert string to float: "
                ++ [APOSTROPHE] ++ a ++ [APOSTROPHE]).

(** A float that is neither negative nor a NaN: plus zero, a positive
    number, or plus infinity. *)
Definition not_negative (x : float) : bool :=
  match x with
  | S754_zero false | S754_finite false _ _ | S754_infinity false => true
  | _ => false
  end.

(* ================================================================== *)
(** * Properties *)

(** ** The UTF-8 codec *)

(** Quotients and remainders by a constant are linear arithmetic. *)
Ltac Zify.zify_post_hook ::= Z.to_euclidean_division_equations.

(** Settles a comparison of the goal by linear arithmetic. *)
Ltac settle_test :=
  match goal with
  | |- context [N.ltb ?a ?b] =>
    first [ rewrite (proj2 (N.ltb_lt a b)) by lia
          | rewrite (proj2 (N.ltb_ge a b)) by lia ]
  | |- context [N.leb ?a ?b] =>
    first [ rewrite (proj2 (N.leb_le a b)) by lia
          | rewrite (proj2 (N.leb_gt a b)) by lia ]
  end.

Lemma utf8_decode_cons (b0 : N) (t0 : bytes) :
  utf8_decode (b0 :: t0) =
    if b0 <? 0x80 then option_map (cons b0) (utf8_decode t0)
    else if (0xC2 <=? b0) && (b0 <=? 0xDF) then
      match t0 with
      | b1 :: t1 =>
        if is_cont b1
        then option_map (cons ((b0 - 0xC0) * 64 + (b1 - 0x80))) (utf8_decode t1)
        else None
      | _ => None
      end
    else if (0xE0 <=? b0) && (b0 <=? 0xEF) then
      match t0 with
      | b1 :: b2 :: t2 =>
        let c := (b0 - 0xE0) * 4096 + (b1 - 0x80) * 64 + (b2 - 0x80) in
        if is_cont b1 && is_cont b2 && (0x800 <=? c) && is_scalar c
        then option_map (cons c) (utf8_decode t2)
        else None
      | _ => None
      end
    else if (0xF0 <=? b0) && (b0 <=? 0xF4) then
      match t0 with
      | b1 :: b2 :: b3 :: t3 =>
        let c := (b0 - 0xF0) * 262144 + (b1 - 0x80) * 4096
                 + (b2 - 0x80) * 64 + (b3 - 0x80) in
        if is_cont b1 && is_cont b2 && is_cont b3
           && (0x10000 <=? c) && (c <? 0x110000)
        then option_map (cons c) (utf8_decode t3)
        else None
      | _ => None
      end
    else None.
Proof. reflexivity. Qed.

Lemma is_scalar_spec (c : N) :
  is_scalar c = true <-> c < 0xD800 \/ 0xDFFF < c < 0x110000.
Proof.
  unfold is_scalar.
  rewrite orb_true_iff, andb_true_iff, !N.ltb_lt. tauto.
Qed.

(** Decoding undoes the encoding of one scalar value. *)
Lemma utf8_decode_char (c : N) (rest : bytes) :
  is_scalar c = true ->
  utf8_decode (utf8_char c ++ rest) = option_map (cons c) (utf8_decode rest).
Proof.
  intros Hc. pose proof (proj1 (is_scalar_spec c) Hc) as Hs.
  unfold utf8_char.
  destruct (N.ltb_spec c 0x80) as [H1 | H1].
  { cbn [app]. rewrite utf8_decode_cons. now settle_test. }
  destruct (N.ltb_spec c 0x800) as [H2 | H2].
  { cbn [app]. rewrite utf8_decode_cons. unfold is_cont.
    repeat settle_test. cbn [andb]. do 2 f_equal. lia. }
  destruct (N.ltb_spec c 0x10000) as [H3 | H3].
  { cbn [app]. rewrite utf8_decode_cons. unfold is_cont. cbv zeta.
    replace ((0xE0 + c / 4096 - 0xE0) * 4096
             + (0x80 + (c / 64) mod 64 - 0x80) * 64
             + (0x80 + c mod 64 - 0x80)) with c by lia.
    rewrite Hc. repeat settle_test. reflexivity. }
  cbn [app]. rewrite utf8_decode_cons. unfold is_cont. cbv zeta.
  replace ((0xF0 + c / 262144 - 0xF0) * 262144
           + (0x80 + (c / 4096) mod 64 - 0x80) * 4096
           + (0x80 + (c / 64) mod 64 - 0x80) * 64
           + (0x80 + c mod 64 - 0x80)) with c by lia.
  repeat settle_test. reflexivity.
Qed.

Lemma utf8_app (a b : str) : utf8 (a ++ b) = utf8 a ++ utf8 b.
Proof. apply flat_map_app. Qed.

(** [bytes.decode()] undoes [str.encode()]. *)
Lemma utf8_decode_utf8 (s : str) (rest : bytes) :
  forallb is_scalar s = true ->
  utf8_decode (utf8 s ++ rest) = option_map (app s) (utf8_decode rest).
Proof.
  induction s as [| c s IH]; intros Hs.
  - cbn. now destruct (utf8_decode rest).
  - cbn [forallb] in Hs. apply andb_true_iff in Hs. destruct Hs as [Hc Hs].
    unfold utf8. cbn [flat_map]. rewrite <- app_assoc.
    rewrite (utf8_decode_char c _ Hc). fold (utf8 s). rewrite (IH Hs).
    now destruct (utf8_decode rest).
Qed.

(** No octet of the encoding of a character other than the line feed is a
    line feed. *)
Lemma utf8_char_no_LF (c : N) :
  c <> LF -> forallb (fun b => negb (b =? LF)) (utf8_char c) = true.
Proof.
  unfold utf8_char, LF. intros Hc.
  destruct (N.ltb_spec c 0x80); [| destruct (N.ltb_spec c 0x800);
    [| destruct (N.ltb_spec c 0x10000) ] ];
    cbn [forallb andb];
    repeat match goal with
           | |- context [N.eqb ?a ?b] =>
             rewrite (proj2 (N.eqb_neq a b)) by lia
           end; reflexivity.
Qed.

(** A read takes exactly the encoded line and its line feed. *)
Lemma split_until_line (line : str) (rest : bytes) :
  ~ In LF line ->
  split_until LF (utf8 line ++ LF :: rest) = Some (utf8 line ++ [LF], rest).
Proof.
  intros Hline.
  assert (H : forallb (fun b => negb (b =? LF)) (utf8 line) = true).
  { induction line as [| c line IH]; [reflexivity |].
    unfold utf8. cbn [flat_map]. rewrite forallb_app. apply andb_true_iff. split.
    - apply utf8_char_no_LF. intros ->. apply Hline. now left.
    - apply IH. intros Hin. apply Hline. now right. }
  clear Hline. induction (utf8 line) as [| b bs IH].
  - reflexivity.
  - cbn [forallb] in H. apply andb_true_iff in H. destruct H as [Hb H].
    cbn [app split_until]. apply negb_true_iff in Hb. rewrite Hb.
    now rewrite (IH H).
Qed.

(** ** Stripping *)

Lemma lstrip_app_space (l : str) (c : N) :
  is_space c = true ->
  lstrip (l ++ [c]) = match lstrip l with [] => [] | _ => lstrip l ++ [c] end.
Proof.
  intros Hc. induction l as [| a l IH].
  - cbn. now rewrite Hc.
  - cbn [app lstrip]. destruct (is_space a); [exact IH | reflexivity].
Qed.

(** A trailing space, a line feed for one, does not survive [strip]. *)
Lemma strip_app_space (l : str) (c : N) :
  is_space c = true -> strip (l ++ [c]) = strip l.
Proof.
  intros Hc. unfold strip. rewrite (lstrip_app_space l c Hc).
  destruct (lstrip l) as [| a l'] eqn:E; [reflexivity |].
  unfold rstrip. rewrite rev_app_distr. cbn [rev app lstrip]. now rewrite Hc.
Qed.

(** ** One exchange *)

Lemma forallb_scalar_line (s : str) :
  forallb is_scalar s = true -> forallb is_scalar (s ++ [LF]) = true.
Proof. intros H. rewrite forallb_app, H. reflexivity. Qed.

(** On an open port whose peer sends the line [line] next, [send_command]
    writes the command and a line feed, reads that line, and returns it
    stripped. *)
Lemma send_command_run (command line : str) (rest : bytes) (w : world) :
  port_open w = true ->
  forallb is_scalar command = true ->
  forallb is_scalar line = true ->
  ~ In LF line ->
  rx w = utf8 line ++ LF :: rest ->
  send_command command w =
    (Ret (strip line),
     World true rest
       (trace w ++ [Wrote (utf8 command ++ [LF]); ReadLine (utf8 line ++ [LF])])).
Proof.
  intros Hopen Hcmd Hline HLF Hrx.
  unfold send_command, bind, encode.
  rewrite (forallb_scalar_line command Hcmd). unfold ret at 1.
  unfold write_async. rewrite Hopen.
  unfold read_until_async, log. cbn [port_open rx trace].
  rewrite Hopen, Hrx, (split_until_line line rest HLF).
  unfold decode.
  replace (utf8 line ++ [LF]) with (utf8 line ++ [LF] ++ []) at 1
    by now rewrite app_nil_r.
  rewrite (utf8_decode_utf8 line _ Hline). cbn [app utf8_decode option_map].
  change (LF <? 128) with true. cbn [option_map app]. unfold ret.
  rewrite (strip_app_space line LF eq_refl), utf8_app, <- app_assoc.
  reflexivity.
Qed.

(** On an open port whose peer sends no further line feed,
    [send_command] writes its command and then blocks in the read. *)
Lemma send_command_blocks (command : str) (w : world) :
  port_open w = true ->
  forallb is_scalar command = true ->
  split_until LF (rx w) = None ->
  send_command command w =
    (Hang,
     World true []
       (trace w ++ [Wrote (utf8 command ++ [LF]); ReadBlocked (rx w)])).
Proof.
  intros Hopen Hcmd Hrx.
  unfold send_command, bind, encode.
  rewrite (forallb_scalar_line command Hcmd). unfold ret at 1.
  unfold write_async. rewrite Hopen.
  unfold read_until_async, log. cbn [port_open rx trace].
  now rewrite Hopen, Hrx, utf8_app, <- app_assoc.
Qed.

(** On a closed port [send_command] gets as far as the call of the
    port's write, which the port refuses. *)
Lemma send_command_closed (command : str) (w : world) :
  port_open w = false ->
  forallb is_scalar command = true ->
  send_command command w =
    (Exc PortNotOpenError, log (RefusedWrite (wire command)) w).
Proof.
  intros Hclosed Hcmd. unfold send_command, bind, encode.
  rewrite (forallb_scalar_line command Hcmd). unfold ret, write_async, wire.
  now rewrite Hclosed, utf8_app.
Qed.

Lemma read_line_run (line : str) (rest : bytes) (w : world) :
  port_open w = true ->
  ~ In LF line ->
  rx w = wire line ++ rest ->
  read_until_async LF w =
    (Ret (wire line), World true rest (trace w ++ [ReadLine (wire line)])).
Proof.
  intros Hopen HLF Hrx. unfold read_until_async, wire in *.
  rewrite <- app_assoc in Hrx. cbn [app] in Hrx.
  now rewrite Hopen, Hrx, (split_until_line line rest HLF).
Qed.

Lemma decode_wire (line : str) :
  forallb is_scalar line = true -> utf8_decode (wire line) = Some (line ++ [LF]).
Proof.
  intros Hline. unfold wire.
  replace (utf8 line ++ [LF]) with (utf8 line ++ [LF] ++ [])
    by now rewrite app_nil_r.
  now rewrite (utf8_decode_utf8 line _ Hline).
Qed.

(** ** Waiting for the peer *)

Lemma wire_length (l : str) : (1 <= List.length (wire l))%nat.
Proof. unfold wire. rewrite length_app. cbn. lia. Qed.

Lemma lines_length (ls : list str) :
  (List.length ls <= List.length (flat_map wire ls))%nat.
Proof.
  induction ls as [| l ls IH]; cbn [flat_map List.length]; [lia |].
  rewrite length_app. pose proof (wire_length l). lia.
Qed.

(** One turn of the loop on a line that does not announce readiness. *)
Lemma wait_loop_skip (fuel : nat) (l : str) (rest : bytes) (w : world) :
  port_open w = true ->
  is_line l -> announces l = false ->
  rx w = wire l ++ rest ->
  wait_for_ready_loop (S fuel) w =
    wait_for_ready_loop fuel
      (World true rest (trace w ++ [ReadLine (wire l)])).
Proof.
  intros Hopen [Hs HLF] Hno Hrx. cbn [wait_for_ready_loop]. unfold bind at 1.
  rewrite (read_line_run l rest w Hopen HLF Hrx).
  unfold bind at 1, decode. rewrite (decode_wire l Hs). unfold ret.
  rewrite (strip_app_space l LF eq_refl).
  unfold announces in Hno. now rewrite Hno.
Qed.

(** The turn of the loop on the line that announces readiness. *)
Lemma wait_loop_ready (fuel : nat) (l : str) (rest : bytes) (w : world) :
  port_open w = true ->
  is_line l -> announces l = true ->
  rx w = wire l ++ rest ->
  wait_for_ready_loop (S fuel) w =
    (Ret tt,
     World true rest
       (trace w ++ [ReadLine (wire l); Printed (text "Arduino is ready!")])).
Proof.
  intros Hopen [Hs HLF] Hyes Hrx. cbn [wait_for_ready_loop]. unfold bind at 1.
  rewrite (read_line_run l rest w Hopen HLF Hrx).
  unfold bind at 1, decode. rewrite (decode_wire l Hs). unfold ret.
  rewrite (strip_app_space l LF eq_refl).
  unfold announces in Hyes. rewrite Hyes. unfold print, log.
  cbn [port_open rx trace]. now rewrite <- app_assoc.
Qed.

Lemma wait_loop_run (skipped : list str) :
  forall (ready : str) (rest : bytes) (fuel : nat) (w : world),
    (List.length skipped < fuel)%nat ->
    port_open w = true ->
    Forall (fun l => is_line l /\ announces l = false) skipped ->
    is_line ready -> announces ready = true ->
    rx w = flat_map wire skipped ++ wire ready ++ rest ->
    wait_for_ready_loop fuel w =
      (Ret tt,
       World true rest
         (trace w ++ map (fun l => ReadLine (wire l)) (skipped ++ [ready])
                  ++ [Printed (text "Arduino is ready!")])).
Proof.
  induction skipped as [| l skipped IH];
    intros ready rest fuel w Hfuel Hopen Hskip Hready Hyes Hrx.
  - destruct fuel as [| fuel]; [cbn in Hfuel; lia |].
    cbn [flat_map app] in Hrx.
    now rewrite (wait_loop_ready fuel ready rest w Hopen Hready Hyes Hrx).
  - destruct fuel as [| fuel]; [cbn in Hfuel; lia |].
    inversion Hskip as [| ? ? [Hl Hno] Hskip']; subst.
    cbn [flat_map] in Hrx. rewrite <- app_assoc in Hrx.
    rewrite (wait_loop_skip fuel l _ w Hopen Hl Hno Hrx).
    rewrite (IH ready rest fuel _); try assumption; try reflexivity.
    + cbn [trace app map]. now rewrite <- app_assoc.
    + cbn [List.length] in Hfuel. lia.
Qed.

(** With no announcement among the lines the peer sends, the loop ends in
    a read that never returns. *)
Lemma wait_loop_hang (skipped : list str) :
  forall (tail : bytes) (fuel : nat) (w : world),
    (List.length skipped < fuel)%nat ->
    port_open w = true ->
    Forall (fun l => is_line l /\ announces l = false) skipped ->
    split_until LF tail = None ->
    rx w = flat_map wire skipped ++ tail ->
    wait_for_ready_loop fuel w =
      (Hang,
       World true []
         (trace w ++ map (fun l => ReadLine (wire l)) skipped
                  ++ [ReadBlocked tail])).
Proof.
  induction skipped as [| l skipped IH];
    intros tail fuel w Hfuel Hopen Hskip Htail Hrx.
  - destruct fuel as [| fuel]; [cbn in Hfuel; lia |].
    cbn [flat_map app] in Hrx. cbn [wait_for_ready_loop]. unfold bind at 1.
    unfold read_until_async. now rewrite Hopen, Hrx, Htail.
  - destruct fuel as [| fuel]; [cbn in Hfuel; lia |].
    inversion Hskip as [| ? ? [Hl Hno] Hskip']; subst.
    cbn [flat_map] in Hrx. rewrite <- app_assoc in Hrx.
    rewrite (wait_loop_skip fuel l _ w Hopen Hl Hno Hrx).
    rewrite (IH tail fuel _); try assumption; try reflexivity.
    + cbn [trace app map]. now rewrite <- app_assoc.
    + cbn [List.length] in Hfuel. lia.
Qed.

Lemma split_until_shorter (expected : N) (bs l r : bytes) :
  split_until expected bs = Some (l, r) ->
  (List.length r < List.length bs)%nat.
Proof.
  revert l. induction bs as [| b bs IH]; intros l; [discriminate |].
  cbn [split_until List.length]. destruct (b =? expected).
  - intros [= _ <-]. lia.
  - destruct (split_until expected bs) as [[l' r'] |]; [| discriminate].
    intros [= _ <-]. specialize (IH l' eq_refl). lia.
Qed.

Lemma wait_loop_total (fuel : nat) :
  forall w : world,
    (List.length (rx w) < fuel)%nat ->
    fst (wait_for_ready_loop fuel w) <> Fuel.
Proof.
  induction fuel as [| fuel IH]; intros w Hfuel; [lia |].
  cbn [wait_for_ready_loop]. unfold bind, read_until_async.
  destruct (port_open w); [| discriminate].
  destruct (split_until LF (rx w)) as [[line rest] |] eqn:E; [| discriminate].
  unfold decode. destruct (utf8_decode line) as [s |]; [| discriminate].
  unfold ret. destruct (contains READY (strip s)); [discriminate |].
  apply IH. cbn [rx]. pose proof (split_until_shorter _ _ _ _ E). lia.
Qed.

(** The loop of [wait_for_ready] never runs out of the steps the model
    gives it: on every world the call returns, raises, or blocks in a
    read. *)
Lemma wait_for_ready_total (w : world) : fst (wait_for_ready w) <> Fuel.
Proof. apply wait_loop_total. lia. Qed.

(** ** Matching *)

Lemma startswith_app (p s : str) : startswith (p ++ s) p = true.
Proof. induction p as [| a p IH]; cbn; [reflexivity |]. now rewrite N.eqb_refl. Qed.

Lemma startswith_split (p s : str) :
  startswith s p = true -> s = p ++ skipn (List.length p) s.
Proof.
  revert s. induction p as [| a p IH]; intros s H; [reflexivity |].
  destruct s as [| b s]; [discriminate |].
  cbn in H. apply andb_true_iff in H. destruct H as [Hab H].
  apply N.eqb_eq in Hab. subst b. cbn. f_equal. now apply IH.
Qed.

(** A literal prefix of a pattern is compared character by character. *)
Lemma re_match_lit (p : str) (rest : list item) (s : str) :
  re_match (map Lit p ++ rest) s =
    if startswith s p then re_match rest (skipn (List.length p) s) else None.
Proof.
  revert s. induction p as [| a p IH]; intros s; [reflexivity |].
  destruct s as [| b s]; [reflexivity |].
  cbn [map app re_match startswith List.length skipn].
  rewrite (N.eqb_sym a b). destruct (b =? a); [apply IH | reflexivity].
Qed.

Lemma re_match_lit_app (p : str) (rest : list item) (s : str) :
  re_match (map Lit p ++ rest) (p ++ s) = re_match rest s.
Proof.
  rewrite re_match_lit, startswith_app.
  now rewrite skipn_app, skipn_all, Nat.sub_diag.
Qed.

Lemma backtrack_none (k : str -> option (list str)) (s : str) (n : nat) :
  (forall m, (0 < m <= n)%nat -> k (skipn m s) = None) ->
  backtrack k s n = None.
Proof.
  induction n as [| n IH]; intros H; [reflexivity |].
  cbn [backtrack]. rewrite (H (S n)) by lia. apply IH. intros m Hm. apply H. lia.
Qed.

(** When no shorter run lets the rest of the pattern match, the greedy
    run decides. *)
Lemma backtrack_longest (k : str -> option (list str)) (s : str) (n : nat) :
  (forall m, (0 < m < n)%nat -> k (skipn m s) = None) ->
  backtrack k s n =
    match n with
    | O => None
    | S _ => option_map (cons (firstn n s)) (k (skipn n s))
    end.
Proof.
  destruct n as [| n]; intros H; [reflexivity |].
  cbn [backtrack]. destruct (k (skipn (S n) s)); [reflexivity |].
  cbn [option_map]. apply backtrack_none. intros m Hm. apply H. lia.
Qed.

Section Greedy.

Variable cls : N -> bool.

Lemma run_length_inside (s : str) (m : nat) :
  (m < run_length cls s)%nat ->
  exists c t, skipn m s = c :: t /\ cls c = true.
Proof.
  revert m. induction s as [| a s IH]; intros m H; [cbn in H; lia |].
  cbn [run_length] in H. destruct (cls a) eqn:Ha; [| lia].
  destruct m as [| m]; [now exists a, s |].
  cbn [skipn]. apply IH. lia.
Qed.

Lemma run_length_split (s : str) :
  let n := run_length cls s in
  forallb cls (firstn n s) = true /\ run_length cls (skipn n s) = O
  /\ List.length (firstn n s) = n.
Proof.
  induction s as [| a s IH]; [now cbn |].
  cbn [run_length]. destruct (cls a) eqn:Ha.
  - cbn [firstn skipn forallb List.length]. rewrite Ha.
    destruct IH as (H1 & H2 & H3). cbn in *. now rewrite H1, H2, H3.
  - cbn [firstn skipn run_length forallb List.length]. now rewrite Ha.
Qed.

Lemma run_length_app (f tail : str) :
  forallb cls f = true -> run_length cls tail = O ->
  run_length cls (f ++ tail) = List.length f.
Proof.
  intros Hf Ht. induction f as [| a f IH]; [exact Ht |].
  cbn [forallb] in Hf. apply andb_true_iff in Hf. destruct Hf as [Ha Hf].
  cbn [app run_length List.length]. rewrite Ha. f_equal. now apply IH.
Qed.

(** A group at the end of the pattern takes the longest run. *)
Lemma re_match_last_field (s : str) :
  re_match [Field cls] s =
    match run_length cls s with
    | O => None
    | S _ => Some [firstn (run_length cls s) s]
    end.
Proof.
  cbn [re_match]. now destruct (run_length cls s).
Qed.

(** A group before a literal outside its class takes the longest run. *)
Lemma re_match_field_lit (c : N) (rest : list item) (s : str) :
  cls c = false ->
  re_match (Field cls :: Lit c :: rest) s =
    match run_length cls s with
    | O => None
    | S _ =>
      option_map (cons (firstn (run_length cls s) s))
        (re_match (Lit c :: rest) (skipn (run_length cls s) s))
    end.
Proof.
  intros Hc. cbn [re_match]. apply backtrack_longest.
  intros m Hm. destruct (run_length_inside s m) as (a & t & -> & Ha); [lia |].
  destruct (a =? c) eqn:E; [| reflexivity].
  apply N.eqb_eq in E. congruence.
Qed.

End Greedy.

Lemma numeric_run (f tail : str) :
  numeric f -> ends_field tail ->
  exists n, run_length digit_or_dot (f ++ tail) = S n
            /\ firstn (S n) (f ++ tail) = f /\ skipn (S n) (f ++ tail) = tail.
Proof.
  intros [Hne Hf] Ht. rewrite (run_length_app _ f tail Hf Ht).
  destruct f as [| c f]; [congruence |]. exists (List.length f).
  change (S (List.length f)) with (List.length (c :: f)).
  split; [reflexivity | split].
  - now rewrite firstn_app, firstn_all, Nat.sub_diag, app_nil_r.
  - now rewrite skipn_app, skipn_all, Nat.sub_diag.
Qed.

Lemma run_numeric (s : str) (n : nat) :
  run_length digit_or_dot s = S n ->
  numeric (firstn (S n) s) /\ ends_field (skipn (S n) s).
Proof.
  intros H. destruct (run_length_split digit_or_dot s) as (H1 & H2 & H3).
  rewrite H in H1, H2, H3. repeat split; try assumption.
  intros E. rewrite E in H3. discriminate.
Qed.

(** The pattern of one field after a literal prefix matches exactly the
    texts of that shape, and its group is the field. *)
Lemma re_match_one_field (prefix r : str) (g : list str) :
  re_match (map Lit prefix ++ [NUMBER]) r = Some g <->
  exists a, one_field prefix r a /\ g = [a].
Proof.
  split.
  - rewrite re_match_lit. destruct (startswith r prefix) eqn:Hp; [| discriminate].
    apply startswith_split in Hp. set (r1 := skipn (List.length prefix) r) in *.
    unfold NUMBER. rewrite re_match_last_field.
    destruct (run_length digit_or_dot r1) as [| n] eqn:Hn; [discriminate |].
    intros [= <-]. destruct (run_numeric r1 n Hn) as [Ha Ht].
    exists (firstn (S n) r1). split; [| reflexivity].
    exists (skipn (S n) r1). now rewrite firstn_skipn.
  - intros (a & (tail & -> & Ha & Ht) & ->).
    rewrite re_match_lit_app. unfold NUMBER. rewrite re_match_last_field.
    destruct (numeric_run a tail Ha Ht) as (n & -> & -> & _). reflexivity.
Qed.

Lemma space_ends_field (s : str) : ends_field (text " AZ: " ++ s).
Proof. reflexivity. Qed.

(** The pattern of two fields matches exactly the texts of that shape,
    and its groups are the two fields. *)
Lemma re_match_two_fields (prefix r : str) (g : list str) :
  re_match (map Lit prefix ++ [NUMBER] ++ lit " AZ: " ++ [NUMBER]) r = Some g <->
  exists a z, two_fields prefix r a z /\ g = [a; z].
Proof.
  change ([NUMBER] ++ lit " AZ: " ++ [NUMBER])
    with (Field digit_or_dot :: Lit 32 :: map Lit (text "AZ: ") ++ [NUMBER]).
  split.
  - rewrite re_match_lit. destruct (startswith r prefix) eqn:Hp; [| discriminate].
    apply startswith_split in Hp. set (r1 := skipn (List.length prefix) r) in *.
    rewrite (re_match_field_lit digit_or_dot 32 _ r1 eq_refl).
    destruct (run_length digit_or_dot r1) as [| n] eqn:Hn; [discriminate |].
    destruct (run_numeric r1 n Hn) as [Ha _].
    change (Lit 32 :: map Lit (text "AZ: ") ++ [NUMBER])
      with (map Lit (text " AZ: ") ++ [NUMBER]).
    destruct (re_match (map Lit (text " AZ: ") ++ [NUMBER]) (skipn (S n) r1))
      as [g' |] eqn:Hg; [| discriminate].
    intros [= <-]. apply re_match_one_field in Hg.
    destruct Hg as (z & (tail & Hr2 & Hz & Ht) & ->).
    exists (firstn (S n) r1), z. split; [| reflexivity].
    exists tail. split; [| split; [exact Ha | split; assumption] ].
    rewrite Hp at 1. f_equal. rewrite <- (firstn_skipn (S n) r1) at 1.
    now rewrite Hr2.
  - intros (a & z & (tail & -> & Ha & Hz & Ht) & ->).
    rewrite re_match_lit_app.
    rewrite (re_match_field_lit digit_or_dot 32 _ _ eq_refl).
    destruct (numeric_run a _ Ha (space_ends_field (z ++ tail))) as (n & -> & -> & ->).
    change (Lit 32 :: map Lit (text "AZ: ") ++ [NUMBER])
      with (map Lit (text " AZ: ") ++ [NUMBER]).
    assert (Hg : re_match (map Lit (text " AZ: ") ++ [NUMBER])
                   (text " AZ: " ++ z ++ tail) = Some [z]).
    { apply re_match_one_field. exists z. split; [| reflexivity]. now exists tail. }
    now rewrite Hg.
Qed.

Lemma send_command_waiting (command line : str) (rest : bytes) (w : world) :
  waiting line rest w ->
  forallb is_scalar command = true ->
  send_command command w = (Ret (strip line), exchanged command line rest w).
Proof.
  intros (Hopen & [Hs HLF] & Hrx) Hcmd.
  apply send_command_run; try assumption.
  rewrite Hrx. unfold wire. now rewrite <- app_assoc.
Qed.

(** What follows an exchange runs on the stripped line. *)
Lemma bind_send_command {A : Type} (command line : str) (rest : bytes)
    (w : world) (k : str -> M A) :
  waiting line rest w ->
  forallb is_scalar command = true ->
  (response <- send_command command ;; k response) w =
    k (strip line) (exchanged command line rest w).
Proof.
  intros Hw Hcmd. unfold bind.
  now rewrite (send_command_waiting command line rest w Hw Hcmd).
Qed.

Lemma startswith_refl (s : str) : startswith s s = true.
Proof. induction s as [| a s IH]; cbn; [reflexivity |]. now rewrite N.eqb_refl. Qed.

Lemma contains_refl (s : str) : contains s s = true.
Proof. destruct s; cbn [contains]; now rewrite startswith_refl. Qed.

(** A text contains each of its endings. *)
Lemma contains_app (p s : str) : contains s (p ++ s) = true.
Proof.
  induction p as [| a p IH]; [apply contains_refl |].
  cbn [app contains]. rewrite IH. apply orb_true_r.
Qed.

Lemma py_float_ok (s : str) (x : float) (w : world) :
  float_of_str s = Some x -> py_float s w = (Ret x, w).
Proof. intros H. unfold py_float. now rewrite H. Qed.

(** ** Position *)

Lemma not_aborted_first (s : str) :
  re_match RE_POSITION (text "Aborted at ALT: " ++ s) = None.
Proof. reflexivity. Qed.

(** The two floats of a response of either shape. *)
Lemma get_position_fields (prefix line a z : str) (x y : float)
    (rest : bytes) (w : world) :
  prefix = text "ALT: " \/ prefix = text "Aborted at ALT: " ->
  waiting line rest w ->
  two_fields prefix (strip line) a z ->
  float_of_str a = Some x -> float_of_str z = Some y ->
  get_position w = (Ret (x, y), exchanged (text "GET_POS") line rest w).
Proof.
  intros Hprefix Hw Hshape Hx Hy. unfold get_position.
  rewrite (bind_send_command (text "GET_POS") line rest w _ Hw eq_refl).
  assert (Hm : re_match (map Lit prefix ++ [NUMBER] ++ lit " AZ: " ++ [NUMBER])
                 (strip line) = Some [a; z]).
  { apply re_match_two_fields. now exists a, z. }
  destruct Hprefix as [-> | ->].
  - change (re_match RE_POSITION (strip line) = Some [a; z]) in Hm.
    rewrite Hm. unfold bind, group. cbn [pred nth].
    now rewrite (py_float_ok a x _ Hx), (py_float_ok z y _ Hy).
  - assert (E : re_match RE_POSITION (strip line) = None).
    { destruct Hshape as (tail & -> & _). apply not_aborted_first. }
    rewrite E.
    change (re_match RE_ABORTED (strip line) = Some [a; z]) in Hm.
    rewrite Hm. unfold bind, group. cbn [pred nth].
    now rewrite (py_float_ok a x _ Hx), (py_float_ok z y _ Hy).
Qed.

(** A response of neither shape. *)
Lemma get_position_invalid (line : str) (rest : bytes) (w : world) :
  waiting line rest w ->
  (forall a z, ~ two_fields (text "ALT: ") (strip line) a z) ->
  (forall a z, ~ two_fields (text "Aborted at ALT: ") (strip line) a z) ->
  get_position w =
    (Exc (ValueError (text "Invalid position response: " ++ strip line)),
     exchanged (text "GET_POS") line rest w).
Proof.
  intros Hw H1 H2. unfold get_position.
  rewrite (bind_send_command (text "GET_POS") line rest w _ Hw eq_refl).
  destruct (re_match RE_POSITION (strip line)) as [g |] eqn:E1.
  { apply (re_match_two_fields (text "ALT: ")) in E1.
    destruct E1 as (a & z & Hs & _). now destruct (H1 a z). }
  destruct (re_match RE_ABORTED (strip line)) as [g |] eqn:E2.
  { apply (re_match_two_fields (text "Aborted at ALT: ")) in E2.
    destruct E2 as (a & z & Hs & _). now destruct (H2 a z). }
  reflexivity.
Qed.

(** ** Readings *)

Lemma reading_run (command : str) (pattern : list item) (invalid : string)
    (line : str) (rest : bytes) (w : world) :
  waiting line rest w ->
  forallb is_scalar command = true ->
  (response <- send_command command ;;
   match re_match pattern response with
   | Some m => py_float (group m 1)
   | None => raise (ValueError (text invalid ++ response))
   end) w =
  match re_match pattern (strip line) with
  | Some m => py_float (group m 1) (exchanged command line rest w)
  | None =>
    (Exc (ValueError (text invalid ++ strip line)),
     exchanged command line rest w)
  end.
Proof.
  intros Hw Hcmd. rewrite (bind_send_command command line rest w _ Hw Hcmd).
  now destruct (re_match pattern (strip line)).
Qed.

Lemma reading_fields (command prefix : str) (invalid : string)
    (line : str) (rest : bytes) (w : world) :
  waiting line rest w ->
  forallb is_scalar command = true ->
  (forall (a : str) (x : float),
     one_field prefix (strip line) a -> float_of_str a = Some x ->
     (response <- send_command command ;;
      match re_match (map Lit prefix ++ [NUMBER]) response with
      | Some m => py_float (group m 1)
      | None => raise (ValueError (text invalid ++ response))
      end) w = (Ret x, exchanged command line rest w))
  /\ ((forall a, ~ one_field prefix (strip line) a) ->
      (response <- send_command command ;;
       match re_match (map Lit prefix ++ [NUMBER]) response with
       | Some m => py_float (group m 1)
       | None => raise (ValueError (text invalid ++ response))
       end) w =
      (Exc (ValueError (text invalid ++ strip line)),
       exchanged command line rest w)).
Proof.
  intros Hw Hcmd. split.
  - intros a x Hshape Hx. rewrite (reading_run _ _ _ line rest w Hw Hcmd).
    assert (Hm : re_match (map Lit prefix ++ [NUMBER]) (strip line) = Some [a]).
    { apply re_match_one_field. now exists a. }
    rewrite Hm. unfold group. cbn [pred nth]. now apply py_float_ok.
  - intros Hno. rewrite (reading_run _ _ _ line rest w Hw Hcmd).
    destruct (re_match (map Lit prefix ++ [NUMBER]) (strip line)) as [g |] eqn:E;
      [| reflexivity].
    apply re_match_one_field in E. destruct E as (a & Hs & _).
    now destruct (Hno a).
Qed.

(** ** Floats as text *)

(** The floats of the examples as binary64 values: sign, mantissa and
    exponent of two. *)
Lemma decimal_examples :
  decimal 450 1 = S754_finite false 6333186975989760 (-47)        (* 45.0 *)
  /\ decimal 900 1 = S754_finite false 6333186975989760 (-46)     (* 90.0 *)
  /\ decimal 9025 2 = S754_finite false 6350779162034176 (-46)    (* 90.25 *)
  /\ decimal 3990 2 = S754_finite false 5615425785377587 (-47)    (* 39.9 *)
  /\ decimal 24645 2 = S754_finite false 8671188501292646 (-45)   (* 246.45 *)
  /\ decimal 250 1 = S754_finite false 7036874417766400 (-48)     (* 25.0 *)
  /\ decimal 500 1 = S754_finite false 7036874417766400 (-47)     (* 50.0 *)
  /\ decimal 1 5 = S754_finite false 5902958103587057 (-69).      (* 1e-05 *)
Proof. repeat split; vm_compute; reflexivity. Qed.

Lemma same_float_eq (x y : float) : same_float x y = true -> x = y.
Proof.
  destruct x as [s | s | | s m e], y as [s' | s' | | s' m' e'];
    cbn [same_float]; try discriminate; try reflexivity.
  - intros H. apply Bool.eqb_prop in H. now subst.
  - intros H. apply Bool.eqb_prop in H. now subst.
  - intros H. apply andb_true_iff in H. destruct H as [H He].
    apply andb_true_iff in H. destruct H as [Hs Hm].
    apply Bool.eqb_prop in Hs. apply Pos.eqb_eq in Hm. apply Z.eqb_eq in He.
    now subst.
Qed.

Lemma reads_back_eq (t : str) (x : float) :
  reads_back t x = true -> float_of_str t = Some x.
Proof.
  unfold reads_back. destruct (float_of_str t) as [y |]; [| discriminate].
  intros H. now rewrite (same_float_eq y x H).
Qed.

Lemma candidate_reads_back (x : float) (num den k p : Z) (t : str) :
  candidate x num den k p = Some t -> reads_back t x = true.
Proof.
  unfold candidate. cbv zeta.
  destruct (reads_back (candidate_text (_ / _) _) x) eqn:Elo;
    destruct (reads_back (candidate_text (_ / _ + 1) _) x) eqn:Ehi;
    try discriminate; intros [= <-]; try assumption.
  match goal with |- context [if ?b then _ else _] => destruct b end; assumption.
Qed.

Lemma shortest_reads_back (fuel : nat) (x : float) (num den k : Z) :
  forall (p : Z) (t : str),
    shortest fuel x num den k p = Some t -> reads_back t x = true.
Proof.
  induction fuel as [| fuel IH]; intros p t; [discriminate |].
  cbn [shortest]. destruct (candidate x num den k p) as [t' |] eqn:E.
  - intros [= <-]. exact (candidate_reads_back _ _ _ _ _ _ E).
  - apply IH.
Qed.

(** The text of a float that is digits and points only is read back by
    float() as that float. *)
Lemma float_repr_reads_back (x : float) :
  forallb digit_or_dot (float_repr x) = true ->
  float_of_str (float_repr x) = Some x.
Proof.
  destruct x as [[|] | [|] | | [|] m e]; try discriminate.
  - reflexivity.
  - change (float_repr (S754_finite false m e)) with (repr_positive m e).
    unfold repr_positive. cbv zeta.
    destruct (shortest 17 _ _ _ _ 1) as [t |] eqn:E; [| discriminate].
    intros _. apply reads_back_eq. exact (shortest_reads_back _ _ _ _ _ _ _ E).
Qed.

Lemma small_text (s : string) : small (text s).
Proof.
  intros c Hc. unfold text in Hc. apply in_map_iff in Hc.
  destruct Hc as (a & <- & _). apply N_ascii_bounded.
Qed.

Lemma small_nil : small [].
Proof. intros c []. Qed.

Lemma small_app (a b : str) : small a -> small b -> small (a ++ b).
Proof. intros Ha Hb c Hc. apply in_app_or in Hc. destruct Hc; auto. Qed.

Lemma small_cons (c : N) (s : str) : c < 256 -> small s -> small (c :: s).
Proof. intros Hc Hs d [<- | Hd]; auto. Qed.

Lemma small_firstn (n : nat) (s : str) : small s -> small (firstn n s).
Proof.
  intros Hs c Hc. apply Hs. rewrite <- (firstn_skipn n s).
  apply in_or_app. now left.
Qed.

Lemma small_skipn (n : nat) (s : str) : small s -> small (skipn n s).
Proof.
  intros Hs c Hc. apply Hs. rewrite <- (firstn_skipn n s).
  apply in_or_app. now right.
Qed.

Lemma small_rev (s : str) : small s -> small (rev s).
Proof. intros Hs c Hc. apply Hs. now apply in_rev. Qed.

Lemma small_zeros (n : nat) : small (repeat ZERO n).
Proof. intros c Hc. apply repeat_spec in Hc. subst c. reflexivity. Qed.

Lemma small_lstrip_zeros (s : str) : small s -> small (lstrip_zeros s).
Proof.
  induction s as [| a s IH]; intros Hs; [exact Hs |].
  cbn [lstrip_zeros]. destruct (a =? ZERO); [| exact Hs].
  apply IH. intros c Hc. apply Hs. now right.
Qed.

Create HintDb small.
#[global] Hint Resolve small_nil small_text small_app small_cons small_firstn small_skipn
  small_rev small_zeros small_lstrip_zeros : small.

Lemma small_layout (ds : str) (decpt : Z) : small ds -> small (layout ds decpt).
Proof.
  intros Hds. unfold layout, digits_of. cbv zeta.
  repeat match goal with
         | |- context [if ?b then _ else _] => destruct b
         end;
    repeat first [ apply small_app | apply small_cons; [reflexivity |] ];
    auto with small.
Qed.

Lemma small_candidate_text (n e10 : Z) : small (candidate_text n e10).
Proof.
  unfold candidate_text, rstrip_zeros, digits_of. cbv zeta.
  apply small_layout. auto with small.
Qed.

Lemma small_shortest (fuel : nat) (x : float) (num den k : Z) :
  forall (p : Z) (t : str), shortest fuel x num den k p = Some t -> small t.
Proof.
  induction fuel as [| fuel IH]; intros p t; [discriminate |].
  cbn [shortest]. destruct (candidate x num den k p) as [t' |] eqn:E; [| apply IH].
  intros [= <-]. revert E. unfold candidate. cbv zeta.
  destruct (reads_back _ x); destruct (reads_back _ x); try discriminate;
    intros [= <-]; try apply small_candidate_text.
  match goal with |- context [if ?b then _ else _] => destruct b end;
    apply small_candidate_text.
Qed.

Lemma small_float_repr (x : float) : small (float_repr x).
Proof.
  destruct x as [s | s | | s m e]; cbn [float_repr]; auto with small.
  - apply small_app; [destruct s |]; auto with small.
  - apply small_app; [destruct s |]; auto with small.
  - apply small_app; [destruct s; auto with small |].
    unfold repr_positive. cbv zeta.
    destruct (shortest 17 _ _ _ _ 1) as [t |] eqn:E; auto with small.
    exact (small_shortest _ _ _ _ _ _ _ E).
Qed.

Lemma small_scalar (s : str) : small s -> forallb is_scalar s = true.
Proof.
  intros Hs. apply forallb_forall. intros c Hc. apply is_scalar_spec.
  left. pose proof (Hs c Hc). lia.
Qed.

(** The text of a float can be encoded. *)
Lemma float_repr_scalar (x : float) : forallb is_scalar (float_repr x) = true.
Proof. apply small_scalar, small_float_repr. Qed.

(** ** Decimal numbers are floats *)

Lemma plain_cases (c : N) :
  plain c = true -> 46 <= c <= 57.
Proof.
  unfold plain, is_ascii_digit, FULL_STOP. intros H.
  apply orb_true_iff in H. destruct H as [H | H].
  - apply andb_true_iff in H. destruct H as [H1 H2].
    apply N.leb_le in H1. apply N.leb_le in H2. lia.
  - apply N.eqb_eq in H. lia.
Qed.

Lemma span_stops (p : N -> bool) (c : N) (s : str) :
  p c = false -> span p (c :: s) = ([], c :: s).
Proof. intros H. cbn [span]. now rewrite H. Qed.

Lemma span_app (p : N -> bool) (a b : str) :
  forallb p a = true -> fst (span p b) = [] -> span p (a ++ b) = (a, b).
Proof.
  intros Ha Hb. induction a as [| c a IH].
  - cbn [app]. destruct b as [| d b]; [reflexivity |].
    cbn [span] in *. destruct (p d); [| reflexivity].
    destruct (span p b). discriminate.
  - cbn [forallb] in Ha. apply andb_true_iff in Ha. destruct Ha as [Hc Ha].
    cbn [app span]. now rewrite Hc, (IH Ha).
Qed.

Lemma span_all (p : N -> bool) (a : str) :
  forallb p a = true -> span p a = (a, []).
Proof.
  intros Ha. rewrite <- (app_nil_r a) at 1. now apply span_app.
Qed.

Lemma plain_to_ascii (s : str) :
  forallb plain s = true -> map to_ascii_decimal s = s.
Proof.
  induction s as [| c s IH]; [reflexivity |].
  cbn [forallb map]. intros H. apply andb_true_iff in H. destruct H as [Hc H].
  rewrite (IH H). f_equal. unfold to_ascii_decimal.
  pose proof (plain_cases c Hc). now rewrite (proj2 (N.ltb_lt c 128)) by lia.
Qed.

Lemma plain_no_underscore (s : str) :
  forallb plain s = true -> existsb (N.eqb UNDERSCORE) s = false.
Proof.
  induction s as [| c s IH]; [reflexivity |].
  cbn [forallb existsb]. intros H. apply andb_true_iff in H. destruct H as [Hc H].
  rewrite (IH H). pose proof (plain_cases c Hc).
  unfold UNDERSCORE. now rewrite (proj2 (N.eqb_neq 95 c)) by lia.
Qed.

Lemma plain_not_c_space (c : N) : plain c = true -> is_c_space c = false.
Proof.
  intros H. pose proof (plain_cases c H). unfold is_c_space.
  rewrite (proj2 (N.leb_gt c 13)) by lia.
  rewrite (proj2 (N.eqb_neq c 32)) by lia. now rewrite andb_false_r.
Qed.

Lemma plain_span_c_space (s : str) :
  forallb plain s = true -> snd (span is_c_space s) = s.
Proof.
  destruct s as [| c s]; [reflexivity |].
  cbn [forallb]. intros H. apply andb_true_iff in H. destruct H as [Hc _].
  now rewrite (span_stops _ c s (plain_not_c_space c Hc)).
Qed.

Lemma plain_c_strip (s : str) : forallb plain s = true -> c_strip s = s.
Proof.
  intros H. unfold c_strip. rewrite (plain_span_c_space s H).
  rewrite plain_span_c_space; [apply rev_involutive |].
  apply forallb_forall. intros c Hc. apply in_rev in Hc.
  exact (proj1 (forallb_forall plain s) H c Hc).
Qed.

Lemma plain_not_word (s : str) (word : string) (c : ascii) (rest : string) :
  word = String c rest -> 97 <= N_of_ascii c ->
  forallb plain s = true -> eq_nocase s word = false.
Proof.
  intros -> Hc H. unfold eq_nocase.
  destruct (list_eq_dec N.eq_dec (map lower s) (text (String c rest)))
    as [E |]; [| reflexivity].
  destruct s as [| d s]; [discriminate |].
  cbn [forallb] in H. apply andb_true_iff in H. destruct H as [Hd _].
  pose proof (plain_cases d Hd) as Hr.
  cbn [map text list_ascii_of_string] in E. injection E as E _.
  unfold lower in E. rewrite (proj2 (N.leb_gt 65 d)) in E by lia.
  cbn [andb] in E. lia.
Qed.

Lemma plain_no_sign (s : str) :
  forallb plain s = true -> take_sign s = (false, s).
Proof.
  destruct s as [| c s]; [reflexivity |].
  cbn [forallb]. intros H. apply andb_true_iff in H. destruct H as [Hc _].
  pose proof (plain_cases c Hc) as Hr. unfold take_sign.
  destruct c as [| p]; [lia |].
  do 6 (destruct p as [p | p |]; try reflexivity); lia.
Qed.

Lemma digit_plain (s : str) :
  forallb is_ascii_digit s = true -> forallb plain s = true.
Proof.
  intros H. apply forallb_forall. intros c Hc. unfold plain.
  now rewrite (proj1 (forallb_forall _ s) H c Hc).
Qed.

(** Digits, a point and digits, with a digit somewhere, are a float for
    float(): the binary64 nearest to the decimal number they write. *)
Lemma float_of_str_decimal (ip fp : str) :
  forallb is_ascii_digit ip = true ->
  forallb is_ascii_digit fp = true ->
  ip ++ fp <> [] ->
  float_of_str (ip ++ FULL_STOP :: fp) =
    Some (float_of_decimal false (digits_value (ip ++ fp))
            (- Z.of_nat (List.length fp))).
Proof.
  intros Hip Hfp Hne.
  assert (Hp : forallb plain (ip ++ FULL_STOP :: fp) = true).
  { rewrite forallb_app. cbn [forallb].
    now rewrite (digit_plain ip Hip), (digit_plain fp Hfp). }
  unfold float_of_str.
  rewrite (plain_to_ascii _ Hp), (plain_no_underscore _ Hp), (plain_c_strip _ Hp).
  unfold parse_float. rewrite (plain_no_sign _ Hp).
  rewrite (plain_not_word _ "inf" _ _ eq_refl ltac:(cbv; discriminate) Hp).
  rewrite (plain_not_word _ "infinity" _ _ eq_refl ltac:(cbv; discriminate) Hp).
  rewrite (plain_not_word _ "nan" _ _ eq_refl ltac:(cbv; discriminate) Hp).
  cbn [orb]. rewrite (span_app is_ascii_digit ip (FULL_STOP :: fp) Hip eq_refl).
  rewrite N.eqb_refl, (span_all is_ascii_digit fp Hfp).
  destruct (ip ++ fp) as [| d ds] eqn:E; [congruence |].
  cbn [exponent_part]. now rewrite Z.sub_0_l.
Qed.

(** Digits alone are a float too. *)
Lemma float_of_str_digits (ip : str) :
  forallb is_ascii_digit ip = true ->
  ip <> [] ->
  float_of_str ip = Some (float_of_decimal false (digits_value ip) 0).
Proof.
  intros Hip Hne. pose proof (digit_plain ip Hip) as Hp.
  unfold float_of_str.
  rewrite (plain_to_ascii _ Hp), (plain_no_underscore _ Hp), (plain_c_strip _ Hp).
  unfold parse_float. rewrite (plain_no_sign _ Hp).
  rewrite (plain_not_word _ "inf" _ _ eq_refl ltac:(cbv; discriminate) Hp).
  rewrite (plain_not_word _ "infinity" _ _ eq_refl ltac:(cbv; discriminate) Hp).
  rewrite (plain_not_word _ "nan" _ _ eq_refl ltac:(cbv; discriminate) Hp).
  cbn [orb]. rewrite (span_all is_ascii_digit ip Hip). rewrite app_nil_r.
  destruct ip as [| d ds]; [congruence |]. reflexivity.
Qed.

(** Settles that a given text has no line feed in it. *)
Ltac no_LF := let H := fresh in intros H; cbv in H; lia.

(** Settles that the peer of a given world sends a given line next. *)
Ltac is_waiting :=
  split; [reflexivity | split; [split; [reflexivity | no_LF] | reflexivity] ].

(** ** The claims *)

(** C1. For every command that can be encoded, on an open port,
    [send_command] writes exactly the octets of the command followed by
    one line feed. When the peer sends a line next, it reads exactly that
    line and its line feed, and returns the line stripped of leading and
    trailing whitespace, otherwise unchanged; as long as no line feed
    comes, it blocks in the read. *)
Theorem send_command_exchange (command : str) (w : world) :
  port_open w = true ->
  forallb is_scalar command = true ->
  (forall (line : str) (rest : bytes),
     is_line line ->
     rx w = wire line ++ rest ->
     send_command command w =
       (Ret (strip line),
        World true rest
          (trace w ++ [Wrote (utf8 command ++ [LF]);
                       ReadLine (utf8 line ++ [LF])])))
  /\ (split_until LF (rx w) = None ->
      send_command command w =
        (Hang,
         World true []
           (trace w ++ [Wrote (utf8 command ++ [LF]); ReadBlocked (rx w)]))).
Proof.
  intros Hopen Hcmd. split.
  - intros line rest Hline Hrx.
    now apply (send_command_waiting command line rest w).
  - now apply send_command_blocks.
Qed.

(** [send_command("LED_ON")] writes the seven octets of [LED_ON\n]; the
    answer [" OK\r\n"] comes back as ["OK"], and the next read starts at
    the line after it. *)
Lemma send_command_exchange_witness :
  send_command (text "LED_ON")
    (World true (wire (text " OK" ++ [13]) ++ wire (text "next")) []) =
  (Ret (text "OK"),
   World true (wire (text "next"))
     [Wrote [76; 69; 68; 95; 79; 78; 10]; ReadLine [32; 79; 75; 13; 10]]).
Proof.
  refine (proj1 (send_command_exchange (text "LED_ON") (World true _ [])
                   eq_refl eq_refl)
            (text " OK" ++ [13]) (wire (text "next")) _ eq_refl).
  split; [reflexivity | no_LF].
Defined.

(** C2, as the code has it. [get_position] sends [GET_POS] and tries two
    patterns in order on the stripped response, both from the start of
    the line. A response that is [ALT: ] or [Aborted at ALT: ], a numeric
    field, [ AZ: ], a numeric field and anything after it, and whose two
    fields float() reads as floats, gives the pair of these floats. *)
Theorem get_position_parses (prefix line a z : str) (x y : float)
    (rest : bytes) (w : world) :
  prefix = text "ALT: " \/ prefix = text "Aborted at ALT: " ->
  waiting line rest w ->
  two_fields prefix (strip line) a z ->
  float_of_str a = Some x -> float_of_str z = Some y ->
  get_position w = (Ret (x, y), exchanged (text "GET_POS") line rest w).
Proof. exact (get_position_fields prefix line a z x y rest w). Qed.

Lemma get_position_parses_witness :
  get_position (World true (wire (text "ALT: 45.0 AZ: 90.0")) []) =
    (Ret (decimal 450 1, decimal 900 1),
     World true [] [Wrote (wire (text "GET_POS"));
                    ReadLine (wire (text "ALT: 45.0 AZ: 90.0"))])
  /\ get_position
       (World true (wire (text "Aborted at ALT: 39.90 AZ: 246.45" ++ [13])) []) =
    (Ret (decimal 3990 2, decimal 24645 2),
     World true [] [Wrote (wire (text "GET_POS"));
                    ReadLine (wire (text "Aborted at ALT: 39.90 AZ: 246.45" ++ [13]))]).
Proof.
  split.
  - refine (get_position_parses (text "ALT: ") (text "ALT: 45.0 AZ: 90.0")
              (text "45.0") (text "90.0") _ _ [] (World true _ [])
              (or_introl eq_refl) _ _ eq_refl eq_refl).
    + is_waiting.
    + exists []. repeat split; discriminate.
  - refine (get_position_parses (text "Aborted at ALT: ")
              (text "Aborted at ALT: 39.90 AZ: 246.45" ++ [13])
              (text "39.90") (text "246.45") _ _ [] (World true _ [])
              (or_intror eq_refl) _ _ eq_refl eq_refl).
    + is_waiting.
    + exists []. repeat split; discriminate.
Defined.

(** C2 as stated fails: [ALT: 1.5 AZ: 2.5.7] matches the first pattern,
    with the fields [1.5] and [2.5.7], and [get_position] returns no
    pair: float() raises on the second field. *)
Lemma get_position_match_raises :
  two_fields (text "ALT: ") (text "ALT: 1.5 AZ: 2.5.7") (text "1.5") (text "2.5.7")
  /\ re_match RE_POSITION (text "ALT: 1.5 AZ: 2.5.7")
       = Some [text "1.5"; text "2.5.7"]
  /\ get_position (World true (wire (text "ALT: 1.5 AZ: 2.5.7")) []) =
     (Exc (ValueError (text "could not convert string to float: '2.5.7'")),
      World true [] [Wrote (wire (text "GET_POS"));
                     ReadLine (wire (text "ALT: 1.5 AZ: 2.5.7"))]).
Proof.
  split; [| split; vm_compute; reflexivity].
  exists []. repeat split; discriminate.
Qed.

(** C3. On a response of neither shape [get_position] raises the
    ValueError whose message is [Invalid position response: ] followed by
    the response, so the message contains the response. *)
Theorem get_position_rejects (line : str) (rest : bytes) (w : world) :
  waiting line rest w ->
  (forall a z, ~ two_fields (text "ALT: ") (strip line) a z) ->
  (forall a z, ~ two_fields (text "Aborted at ALT: ") (strip line) a z) ->
  get_position w =
    (Exc (ValueError (text "Invalid position response: " ++ strip line)),
     exchanged (text "GET_POS") line rest w)
  /\ contains (strip line)
       (text "Invalid position response: " ++ strip line) = true.
Proof.
  intros Hw H1 H2. split.
  - now apply get_position_invalid.
  - apply contains_app.
Qed.

Lemma get_position_rejects_witness :
  get_position (World true (wire (text "garbage")) []) =
    (Exc (ValueError (text "Invalid position response: garbage")),
     World true [] [Wrote (wire (text "GET_POS"));
                    ReadLine (wire (text "garbage"))])
  /\ contains (text "garbage") (text "Invalid position response: garbage") = true.
Proof.
  refine (get_position_rejects (text "garbage") [] (World true _ []) _ _ _).
  - is_waiting.
  - intros a z (tail & H & _). discriminate H.
  - intros a z (tail & H & _). discriminate H.
Defined.

(** C4. Outside 1..15 [set_speed] raises the ValueError of the range
    check and leaves the port as it was: nothing written, nothing read.
    Within 1..15 it makes exactly one exchange, whose command is
    [SET_SPEED ] followed by the number in decimal. *)
Theorem set_speed_validates (speed : Z) (w : world) :
  ((speed < 1 \/ 15 < speed)%Z ->
   set_speed speed w =
     (Exc (ValueError (text "Speed must be between 1 and 15 RPM.")), w))
  /\ ((1 <= speed <= 15)%Z ->
      forall (line : str) (rest : bytes),
        waiting line rest w ->
        set_speed speed w =
          (Ret tt,
           exchanged (text "SET_SPEED " ++ str_of_int speed) line rest w)).
Proof.
  unfold set_speed. split.
  - intros H.
    replace ((speed <? 1) || (speed >? 15))%Z with true; [reflexivity |].
    symmetry. apply orb_true_iff. rewrite Z.ltb_lt, Z.gtb_gt. lia.
  - intros H line rest Hw.
    replace ((speed <? 1) || (speed >? 15))%Z with false.
    + apply (bind_send_command _ line rest w (fun _ => ret tt) Hw).
      apply small_scalar. unfold str_of_int. auto with small.
    + symmetry. apply orb_false_iff. rewrite Z.ltb_ge, Z.gtb_ltb, Z.ltb_ge. lia.
Qed.

Lemma set_speed_validates_witness :
  (set_speed 0 (World true (wire (text "OK")) []) =
     (Exc (ValueError (text "Speed must be between 1 and 15 RPM.")),
      World true (wire (text "OK")) [])
   /\ set_speed 16 (World true (wire (text "OK")) []) =
     (Exc (ValueError (text "Speed must be between 1 and 15 RPM.")),
      World true (wire (text "OK")) []))
  /\ (set_speed 1 (World true (wire (text "OK")) []) =
        (Ret tt, World true [] [Wrote (wire (text "SET_SPEED 1"));
                                ReadLine (wire (text "OK"))])
      /\ set_speed 15 (World true (wire (text "OK")) []) =
        (Ret tt, World true [] [Wrote (wire (text "SET_SPEED 15"));
                                ReadLine (wire (text "OK"))])).
Proof.
  split; split.
  - apply (proj1 (set_speed_validates 0 (World true (wire (text "OK")) []))). lia.
  - apply (proj1 (set_speed_validates 16 (World true (wire (text "OK")) []))). lia.
  - apply (proj2 (set_speed_validates 1 (World true (wire (text "OK")) []))
             ltac:(lia) (text "OK") []).
    is_waiting.
  - apply (proj2 (set_speed_validates 15 (World true (wire (text "OK")) []))
             ltac:(lia) (text "OK") []).
    is_waiting.
Defined.

(** C5, as the code has it. When the texts of [a] and [z] are made of
    digits and points only, [get_position] reads the line
    [ALT: {a} AZ: {z}] back as exactly [(a, z)]. *)
Theorem position_roundtrip (a z : float) (line : str) (rest : bytes)
    (w : world) :
  waiting line rest w ->
  strip line = position_line a z ->
  numeric (float_repr a) -> numeric (float_repr z) ->
  get_position w = (Ret (a, z), exchanged (text "GET_POS") line rest w).
Proof.
  intros Hw Hline Ha Hz.
  apply (get_position_fields (text "ALT: ") line (float_repr a) (float_repr z));
    try assumption.
  - now left.
  - exists []. split; [| split; [exact Ha | split; [exact Hz | reflexivity] ] ].
    rewrite Hline. unfold position_line. now rewrite app_nil_r.
  - apply float_repr_reads_back, Ha.
  - apply float_repr_reads_back, Hz.
Qed.

Lemma position_roundtrip_witness :
  position_line (decimal 3990 2) (decimal 24645 2) = text "ALT: 39.9 AZ: 246.45"
  /\ get_position (World true (wire (text "ALT: 39.9 AZ: 246.45")) []) =
     (Ret (decimal 3990 2, decimal 24645 2),
      World true [] [Wrote (wire (text "GET_POS"));
                     ReadLine (wire (text "ALT: 39.9 AZ: 246.45"))]).
Proof.
  split; [vm_compute; reflexivity |].
  refine (position_roundtrip (decimal 3990 2) (decimal 24645 2)
            (text "ALT: 39.9 AZ: 246.45") [] (World true _ []) _ _ _ _).
  - is_waiting.
  - vm_compute. reflexivity.
  - split; [vm_compute; discriminate | vm_compute; reflexivity].
  - split; [vm_compute; discriminate | vm_compute; reflexivity].
Defined.

(** C5 as stated fails: the float 1e-05 is written [1e-05], which is no
    numeric field, and [get_position] rejects the line. *)
Lemma position_roundtrip_fails :
  position_line (decimal 1 5) (S754_zero false) = text "ALT: 1e-05 AZ: 0.0"
  /\ get_position
       (World true (wire (position_line (decimal 1 5) (S754_zero false))) []) =
     (Exc (ValueError (text "Invalid position response: ALT: 1e-05 AZ: 0.0")),
      World true [] [Wrote (wire (text "GET_POS"));
                     ReadLine (wire (text "ALT: 1e-05 AZ: 0.0"))]).
Proof. split; vm_compute; reflexivity. Qed.

(** C6. [wait_for_ready] writes nothing. When the peer sends the lines
    [skipped], none of which has the readiness phrase in its stripped
    text, and then a line [ready] that has it, [wait_for_ready] returns
    having read exactly those lines, and what the peer sends after [ready]
    is left for the next read. When no line the peer sends has the
    phrase, it never returns. *)
Theorem wait_for_ready_consumes (skipped : list str) (w : world) :
  port_open w = true ->
  Forall (fun l => is_line l /\ announces l = false) skipped ->
  (forall (ready : str) (rest : bytes),
     is_line ready -> announces ready = true ->
     rx w = flat_map wire skipped ++ wire ready ++ rest ->
     wait_for_ready w =
       (Ret tt,
        World true rest
          (trace w ++ map (fun l => ReadLine (wire l)) (skipped ++ [ready])
                   ++ [Printed (text "Arduino is ready!")])))
  /\ (forall tail : bytes,
        split_until LF tail = None ->
        rx w = flat_map wire skipped ++ tail ->
        wait_for_ready w =
          (Hang,
           World true []
             (trace w ++ map (fun l => ReadLine (wire l)) skipped
                      ++ [ReadBlocked tail]))).
Proof.
  intros Hopen Hskip. unfold wait_for_ready. split.
  - intros ready rest Hready Hyes Hrx.
    apply wait_loop_run; try assumption.
    rewrite Hrx, length_app. pose proof (lines_length skipped). lia.
  - intros tail Htail Hrx.
    apply wait_loop_hang; try assumption.
    rewrite Hrx, length_app. pose proof (lines_length skipped). lia.
Qed.

Lemma wait_for_ready_consumes_witness :
  wait_for_ready
    (World true
       (wire (text "booting" ++ [13]) ++ wire []
        ++ wire (text "microMONET is ready for some stargazing!" ++ [13])
        ++ wire (text "ALT: 45.0 AZ: 90.0")) []) =
  (Ret tt,
   World true (wire (text "ALT: 45.0 AZ: 90.0"))
     [ReadLine (wire (text "booting" ++ [13])); ReadLine (wire []);
      ReadLine (wire (text "microMONET is ready for some stargazing!" ++ [13]));
      Printed (text "Arduino is ready!")]).
Proof.
  refine (proj1 (wait_for_ready_consumes [text "booting" ++ [13]; []]
                   (World true _ []) eq_refl _)
            (text "microMONET is ready for some stargazing!" ++ [13])
            (wire (text "ALT: 45.0 AZ: 90.0")) _ eq_refl eq_refl).
  - repeat constructor; no_LF.
  - split; [reflexivity | no_LF].
Defined.

(** C7, as the code has it. [get_temperature] sends [GET_TEMP] and
    [get_humidity] sends [GET_HUMI]. A response that is [Temperature: ]
    (or [Humidity: ]), a numeric field that float() reads as a float, and
    anything after it gives that float; a response that is not the prefix
    and a numeric field raises the ValueError whose message ends with the
    response. *)
Theorem get_reading_parses (line : str) (rest : bytes) (w : world) :
  waiting line rest w ->
  (forall (a : str) (x : float),
     one_field (text "Temperature: ") (strip line) a ->
     float_of_str a = Some x ->
     get_temperature w = (Ret x, exchanged (text "GET_TEMP") line rest w))
  /\ ((forall a, ~ one_field (text "Temperature: ") (strip line) a) ->
      get_temperature w =
        (Exc (ValueError (text "Invalid temperature response: " ++ strip line)),
         exchanged (text "GET_TEMP") line rest w))
  /\ (forall (a : str) (x : float),
        one_field (text "Humidity: ") (strip line) a ->
        float_of_str a = Some x ->
        get_humidity w = (Ret x, exchanged (text "GET_HUMI") line rest w))
  /\ ((forall a, ~ one_field (text "Humidity: ") (strip line) a) ->
      get_humidity w =
        (Exc (ValueError (text "Invalid humidity response: " ++ strip line)),
         exchanged (text "GET_HUMI") line rest w)).
Proof.
  intros Hw.
  destruct (reading_fields (text "GET_TEMP") (text "Temperature: ")
              "Invalid temperature response: " line rest w Hw eq_refl)
    as [T1 T2].
  destruct (reading_fields (text "GET_HUMI") (text "Humidity: ")
              "Invalid humidity response: " line rest w Hw eq_refl)
    as [H1 H2].
  repeat split; assumption.
Qed.

Lemma get_reading_parses_witness :
  get_temperature
    (World true (wire (text "Temperature: 25.0 " ++ [DEGREE] ++ text "C")) []) =
    (Ret (decimal 250 1),
     World true []
       [Wrote (wire (text "GET_TEMP"));
        ReadLine (wire (text "Temperature: 25.0 " ++ [DEGREE] ++ text "C"))])
  /\ get_humidity (World true (wire (text "Humidity: 50.0 %")) []) =
    (Ret (decimal 500 1),
     World true [] [Wrote (wire (text "GET_HUMI"));
                    ReadLine (wire (text "Humidity: 50.0 %"))])
  /\ get_temperature (World true (wire (text "Temp: 25")) []) =
    (Exc (ValueError (text "Invalid temperature response: Temp: 25")),
     World true [] [Wrote (wire (text "GET_TEMP"));
                    ReadLine (wire (text "Temp: 25"))]).
Proof.
  split; [| split].
  - refine (proj1 (get_reading_parses
                     (text "Temperature: 25.0 " ++ [DEGREE] ++ text "C") []
                     (World true _ []) _)
              (text "25.0") _ _ eq_refl).
    + is_waiting.
    + exists (text " " ++ [DEGREE] ++ text "C"). repeat split; discriminate.
  - refine (proj1 (proj2 (proj2 (get_reading_parses (text "Humidity: 50.0 %") []
                                   (World true _ []) _)))
              (text "50.0") _ _ eq_refl).
    + is_waiting.
    + exists (text " %"). repeat split; discriminate.
  - refine (proj1 (proj2 (get_reading_parses (text "Temp: 25") []
                            (World true _ []) _)) _).
    + is_waiting.
    + intros a (tail & H & _). discriminate H.
Defined.

(** C7 as stated fails: [Temperature: 25.0.1] and [Humidity: .] match
    their patterns, and the call neither returns a float nor raises the
    error that carries the response: float() raises on the field, with a
    message that quotes the field only. *)
Lemma get_reading_match_raises :
  (one_field (text "Temperature: ") (text "Temperature: 25.0.1") (text "25.0.1")
   /\ get_temperature (World true (wire (text "Temperature: 25.0.1")) []) =
      (Exc (ValueError (text "could not convert string to float: '25.0.1'")),
       World true [] [Wrote (wire (text "GET_TEMP"));
                      ReadLine (wire (text "Temperature: 25.0.1"))])
   /\ contains (text "Temperature: 25.0.1")
        (text "could not convert string to float: '25.0.1'") = false)
  /\ (one_field (text "Humidity: ") (text "Humidity: .") (text ".")
      /\ get_humidity (World true (wire (text "Humidity: .")) []) =
         (Exc (ValueError (text "could not convert string to float: '.'")),
          World true [] [Wrote (wire (text "GET_HUMI"));
                         ReadLine (wire (text "Humidity: ."))])
      /\ contains (text "Humidity: .")
           (text "could not convert string to float: '.'") = false).
Proof.
  split; (split; [exists []; repeat split; discriminate
                 | split; vm_compute; reflexivity]).
Qed.

(** C8. [set_position] makes exactly one exchange, whose command is
    [ALT:], the text of the altitude, [ AZ:] and the text of the azimuth,
    each as [repr] writes it; it returns once the answer to that command
    is read, without asking for the position. *)
Theorem set_position_exchange (altitude azimuth : float) (line : str)
    (rest : bytes) (w : world) :
  waiting line rest w ->
  set_position altitude azimuth w =
    (Ret tt,
     exchanged (text "ALT:" ++ float_repr altitude
                ++ text " AZ:" ++ float_repr azimuth) line rest w).
Proof.
  intros Hw. unfold set_position. cbv zeta.
  apply (bind_send_command _ line rest w (fun _ => ret tt) Hw).
  apply small_scalar. auto using small_float_repr with small.
Qed.

Lemma set_position_exchange_witness :
  set_position (decimal 450 1) (decimal 9025 2)
    (World true (wire (text "Slewing") ++ wire (text "ALT: 1.0 AZ: 2.0")) []) =
  (Ret tt,
   World true (wire (text "ALT: 1.0 AZ: 2.0"))
     [Wrote (wire (text "ALT:45.0 AZ:90.25")); ReadLine (wire (text "Slewing"))]).
Proof.
  refine (set_position_exchange (decimal 450 1) (decimal 9025 2) (text "Slewing")
            (wire (text "ALT: 1.0 AZ: 2.0")) (World true _ []) _).
  is_waiting.
Defined.

(** C9, as the code has it. The client keeps no state of its own about
    the port and has no error of its own for a closed one. After
    [close()], [send_command] and every method built on it still encode
    their command and call the port's write, [wait_for_ready] still calls
    the port's read; the closed port refuses the call, nothing is written
    or read, and the port's own error comes back unchanged. A second
    [close()] does nothing. *)
Theorem closed_port_refuses (command : str) (w : world) :
  port_open w = true ->
  forallb is_scalar command = true ->
  let w' := snd (close w) in
  let refused (c : str) := log (RefusedWrite (wire c)) w' in
  w' = World false (rx w) (trace w ++ [ClosedPort])
  /\ send_command command w' = (Exc PortNotOpenError, refused command)
  /\ get_position w' = (Exc PortNotOpenError, refused (text "GET_POS"))
  /\ get_temperature w' = (Exc PortNotOpenError, refused (text "GET_TEMP"))
  /\ get_humidity w' = (Exc PortNotOpenError, refused (text "GET_HUMI"))
  /\ (forall a z : float,
        set_position a z w' =
          (Exc PortNotOpenError,
           refused (text "ALT:" ++ float_repr a ++ text " AZ:" ++ float_repr z)))
  /\ (forall speed : Z,
        (1 <= speed <= 15)%Z ->
        set_speed speed w' =
          (Exc PortNotOpenError,
           refused (text "SET_SPEED " ++ str_of_int speed)))
  /\ led_on w' = (Exc PortNotOpenError, refused (text "LED_ON"))
  /\ led_off w' = (Exc PortNotOpenError, refused (text "LED_OFF"))
  /\ ccd_on w' = (Exc PortNotOpenError, refused (text "CCD_ON"))
  /\ ccd_off w' = (Exc PortNotOpenError, refused (text "CCD_OFF"))
  /\ abort_slew w' = (Exc PortNotOpenError, refused (text "ABORT"))
  /\ wait_for_ready w' = (Exc PortNotOpenError, log RefusedRead w')
  /\ close w' = (Ret tt, w').
Proof.
  intros Hopen Hcmd. unfold close, serial_close. rewrite Hopen. cbn [snd].
  cbv zeta. set (w' := World false (rx w) (trace w ++ [ClosedPort])).
  assert (Hsend : forall c, forallb is_scalar c = true ->
            send_command c w' =
              (Exc PortNotOpenError, log (RefusedWrite (wire c)) w'))
    by (intros c Hc; now apply send_command_closed).
  split; [reflexivity |]. split; [exact (Hsend command Hcmd) |].
  unfold get_position, get_temperature, get_humidity, set_position, set_speed,
    led_on, led_off, ccd_on, ccd_off, abort_slew, bind.
  rewrite !Hsend by reflexivity.
  repeat split; try reflexivity.
  - intros a z. cbv zeta. rewrite Hsend; [reflexivity |].
    apply small_scalar. auto using small_float_repr with small.
  - intros speed Hspeed.
    replace ((speed <? 1) || (speed >? 15))%Z with false.
    + rewrite Hsend; [reflexivity |].
      apply small_scalar. unfold str_of_int. auto with small.
    + symmetry. apply orb_false_iff. rewrite Z.ltb_ge, Z.gtb_ltb, Z.ltb_ge. lia.
Qed.

Lemma closed_port_refuses_witness :
  let w' := World false [] [ClosedPort] in
  snd (close (World true [] [])) = w'
  /\ send_command (text "LED_ON") w' =
       (Exc PortNotOpenError,
        World false [] [ClosedPort; RefusedWrite (wire (text "LED_ON"))])
  /\ wait_for_ready w' =
       (Exc PortNotOpenError, World false [] [ClosedPort; RefusedRead]).
Proof.
  pose proof (closed_port_refuses (text "LED_ON") (World true [] [])
                eq_refl eq_refl) as H.
  cbv zeta in H.
  destruct H as (H0 & H1 & _ & _ & _ & _ & _ & _ & _ & _ & _ & _ & H12 & _).
  cbv zeta. split; [exact H0 | split; [exact H1 | exact H12] ].
Defined.

(** C9 as stated fails: after [close()], [send_command("LED_ON")] does
    call the port, which the trace records as a refused write, and what
    it raises is the port's error. *)
Lemma closed_port_is_called :
  let w' := snd (close (World true [] [])) in
  send_command (text "LED_ON") w' =
    (Exc PortNotOpenError,
     World false [] [ClosedPort; RefusedWrite (wire (text "LED_ON"))])
  /\ trace (snd (send_command (text "LED_ON") w')) <> trace w'.
Proof. split; [reflexivity | discriminate]. Qed.

(** C10. A response can match a pattern and still hold no float: the
    field of [Temperature: .] is a lone point, the first field of
    [ALT: 1.2.3 AZ: 4.0] has two points. On these [get_temperature] and
    [get_position] return nothing; they raise the ValueError of float(),
    whose message quotes the field and does not contain the response. *)
Theorem match_without_float (rest : bytes) (w : world) :
  (re_match RE_TEMPERATURE (text "Temperature: .") = Some [text "."]
   /\ (waiting (text "Temperature: .") rest w ->
       get_temperature w =
         (Exc (ValueError (text "could not convert string to float: '.'")),
          exchanged (text "GET_TEMP") (text "Temperature: .") rest w))
   /\ contains (text "Temperature: .")
        (text "could not convert string to float: '.'") = false)
  /\ (re_match RE_POSITION (text "ALT: 1.2.3 AZ: 4.0")
        = Some [text "1.2.3"; text "4.0"]
      /\ (waiting (text "ALT: 1.2.3 AZ: 4.0") rest w ->
          get_position w =
            (Exc (ValueError
                    (text "could not convert string to float: '1.2.3'")),
             exchanged (text "GET_POS") (text "ALT: 1.2.3 AZ: 4.0") rest w))
      /\ contains (text "ALT: 1.2.3 AZ: 4.0")
           (text "could not convert string to float: '1.2.3'") = false).
Proof.
  repeat split; try reflexivity.
  - intros Hw. unfold get_temperature.
    now rewrite (bind_send_command (text "GET_TEMP") _ rest w _ Hw eq_refl).
  - intros Hw. unfold get_position.
    now rewrite (bind_send_command (text "GET_POS") _ rest w _ Hw eq_refl).
Qed.

Lemma match_without_float_witness :
  get_temperature (World true (wire (text "Temperature: .")) []) =
    (Exc (ValueError (text "could not convert string to float: '.'")),
     World true [] [Wrote (wire (text "GET_TEMP"));
                    ReadLine (wire (text "Temperature: ."))])
  /\ get_position (World true (wire (text "ALT: 1.2.3 AZ: 4.0")) []) =
    (Exc (ValueError (text "could not convert string to float: '1.2.3'")),
     World true [] [Wrote (wire (text "GET_POS"));
                    ReadLine (wire (text "ALT: 1.2.3 AZ: 4.0"))]).
Proof.
  split.
  - refine (proj1 (proj2 (proj1 (match_without_float []
                                   (World true (wire (text "Temperature: .")) []))))
              _).
    is_waiting.
  - refine (proj1 (proj2 (proj2 (match_without_float []
                                   (World true (wire (text "ALT: 1.2.3 AZ: 4.0")) []))))
              _).
    is_waiting.
Defined.

(* ================================================================== *)
(** * Further properties *)

(** ** Sequences of exchanges *)

Lemma send_commands_run (commands : list str) :
  forall (lines : list str) (rest : bytes) (w : world),
    List.length commands = List.length lines ->
    Forall (fun c => forallb is_scalar c = true) commands ->
    Forall is_line lines ->
    port_open w = true ->
    rx w = flat_map wire lines ++ rest ->
    send_commands commands w =
      (Ret (map strip lines),
       World true rest (trace w ++ exchanges commands lines)).
Proof.
  induction commands as [| c cs IH];
    intros lines rest w Hlen Hcs Hls Hopen Hrx;
    destruct lines as [| l ls]; try discriminate.
  - cbn [flat_map app] in Hrx. unfold exchanges. cbn.
    rewrite app_nil_r, <- Hrx, <- Hopen. now destruct w.
  - inversion Hcs as [| ? ? Hc Hcs']; subst.
    inversion Hls as [| ? ? Hl Hls']; subst.
    cbn [flat_map] in Hrx. rewrite <- app_assoc in Hrx.
    cbn [send_commands].
    rewrite (bind_send_command c l _ w _ (conj Hopen (conj Hl Hrx)) Hc).
    unfold bind.
    rewrite (IH ls rest (exchanged c l (flat_map wire ls ++ rest) w));
      try assumption; try reflexivity.
    + unfold ret, exchanges. cbn [map combine flat_map fst snd exchanged trace].
      now rewrite <- app_assoc.
    + cbn [List.length] in Hlen. lia.
Qed.

(** X1. Strict alternation. Commands sent one after the other to a peer
    that answers each with one line get their answers in order: the n-th
    response returned is the n-th line stripped, the trace is write, read,
    write, read, and what the peer sent after the last answer is still to
    be read. *)
Theorem send_commands_alternate (commands lines : list str) (rest : bytes)
    (w : world) :
  List.length commands = List.length lines ->
  Forall (fun c => forallb is_scalar c = true) commands ->
  Forall is_line lines ->
  port_open w = true ->
  rx w = flat_map wire lines ++ rest ->
  send_commands commands w =
    (Ret (map strip lines),
     World true rest (trace w ++ exchanges commands lines)).
Proof. exact (send_commands_run commands lines rest w). Qed.

Lemma send_commands_alternate_witness :
  send_commands [text "LED_ON"; text "GET_TEMP"]
    (World true (wire (text "OK" ++ [13]) ++ wire (text "Temperature: 25.0")
                 ++ wire (text "late")) []) =
  (Ret [text "OK"; text "Temperature: 25.0"],
   World true (wire (text "late"))
     [Wrote (wire (text "LED_ON")); ReadLine (wire (text "OK" ++ [13]));
      Wrote (wire (text "GET_TEMP")); ReadLine (wire (text "Temperature: 25.0"))]).
Proof.
  refine (send_commands_alternate [text "LED_ON"; text "GET_TEMP"]
            [text "OK" ++ [13]; text "Temperature: 25.0"]
            (wire (text "late")) (World true _ []) eq_refl _ _ eq_refl eq_refl).
  - repeat constructor.
  - repeat constructor; no_LF.
Defined.

(** ** Commands without a result *)

(** X2. [led_on], [led_off], [ccd_on], [ccd_off] and [abort_slew] each
    make one exchange with their own word and return nothing, whatever
    line the peer answers: the answer is read and dropped. *)
Theorem fixed_commands_drop_answer (line : str) (rest : bytes) (w : world) :
  waiting line rest w ->
  led_on w = (Ret tt, exchanged (text "LED_ON") line rest w)
  /\ led_off w = (Ret tt, exchanged (text "LED_OFF") line rest w)
  /\ ccd_on w = (Ret tt, exchanged (text "CCD_ON") line rest w)
  /\ ccd_off w = (Ret tt, exchanged (text "CCD_OFF") line rest w)
  /\ abort_slew w = (Ret tt, exchanged (text "ABORT") line rest w).
Proof.
  intros Hw. unfold led_on, led_off, ccd_on, ccd_off, abort_slew.
  repeat split;
    apply (bind_send_command _ line rest w (fun _ => ret tt) Hw); reflexivity.
Qed.

Lemma fixed_commands_drop_answer_witness :
  abort_slew (World true (wire (text "ERROR: unknown command")) []) =
    (Ret tt,
     World true [] [Wrote (wire (text "ABORT"));
                    ReadLine (wire (text "ERROR: unknown command"))]).
Proof.
  refine (proj2 (proj2 (proj2 (proj2
            (fixed_commands_drop_answer (text "ERROR: unknown command") []
               (World true _ []) _))))).
  is_waiting.
Defined.

(** ** Text that cannot be encoded or decoded *)

(** X3. A command with a lone surrogate in it cannot be encoded:
    [send_command] raises UnicodeEncodeError before it calls the port,
    open or closed; nothing is written and nothing is read. *)
Theorem send_command_unencodable (command : str) (w : world) :
  forallb is_scalar command = false ->
  send_command command w = (Exc UnicodeEncodeError, w).
Proof.
  intros H. unfold send_command, bind, encode.
  now rewrite forallb_app, H.
Qed.

Lemma send_command_unencodable_witness :
  send_command (text "LED_" ++ [0xD800]) (World true (wire (text "OK")) []) =
    (Exc UnicodeEncodeError, World true (wire (text "OK")) []).
Proof.
  refine (send_command_unencodable (text "LED_" ++ [0xD800]) (World true _ []) _).
  reflexivity.
Defined.

Lemma split_until_raw (raw rest : bytes) :
  ~ In LF raw ->
  split_until LF (raw ++ LF :: rest) = Some (raw ++ [LF], rest).
Proof.
  intros H. induction raw as [| b raw IH]; [reflexivity |].
  cbn [app split_until].
  destruct (N.eqb_spec b LF) as [-> | _]; [destruct H; now left |].
  rewrite IH; [reflexivity |]. intros Hin. apply H. now right.
Qed.

(** X4. A line of the peer that is not UTF-8 makes [send_command] raise
    UnicodeDecodeError. The command has been written and the line is
    used up: the next read starts after it. *)
Theorem send_command_undecodable (command : str) (raw rest : bytes)
    (w : world) :
  port_open w = true ->
  forallb is_scalar command = true ->
  ~ In LF raw ->
  utf8_decode (raw ++ [LF]) = None ->
  rx w = raw ++ LF :: rest ->
  send_command command w =
    (Exc UnicodeDecodeError,
     World true rest
       (trace w ++ [Wrote (wire command); ReadLine (raw ++ [LF])])).
Proof.
  intros Hopen Hcmd Hraw Hdec Hrx.
  unfold send_command, bind, encode.
  rewrite (forallb_scalar_line command Hcmd). unfold ret at 1.
  unfold write_async. rewrite Hopen.
  unfold read_until_async, log. cbn [port_open rx trace].
  rewrite Hopen, Hrx, (split_until_raw raw rest Hraw).
  unfold decode. rewrite Hdec. unfold raise, wire.
  now rewrite utf8_app, <- app_assoc.
Qed.

Lemma send_command_undecodable_witness :
  send_command (text "GET_POS")
    (World true ([0xFF; 0xFE; 10] ++ wire (text "ALT: 1.0 AZ: 2.0")) []) =
  (Exc UnicodeDecodeError,
   World true (wire (text "ALT: 1.0 AZ: 2.0"))
     [Wrote (wire (text "GET_POS")); ReadLine [0xFF; 0xFE; 10]]).
Proof.
  refine (send_command_undecodable (text "GET_POS") [0xFF; 0xFE]
            (wire (text "ALT: 1.0 AZ: 2.0")) (World true _ [])
            eq_refl eq_refl _ eq_refl eq_refl).
  no_LF.
Defined.

(** X5. [wait_for_ready] does not skip a line that is not UTF-8: after
    any number of lines without the readiness phrase, such a line makes
    it raise UnicodeDecodeError, even when the announcement follows. *)
Theorem wait_for_ready_undecodable (skipped : list str) (raw rest : bytes)
    (w : world) :
  port_open w = true ->
  Forall (fun l => is_line l /\ announces l = false) skipped ->
  ~ In LF raw ->
  utf8_decode (raw ++ [LF]) = None ->
  rx w = flat_map wire skipped ++ raw ++ LF :: rest ->
  wait_for_ready w =
    (Exc UnicodeDecodeError,
     World true rest
       (trace w ++ map (fun l => ReadLine (wire l)) skipped
                ++ [ReadLine (raw ++ [LF])])).
Proof.
  intros Hopen Hskip Hraw Hdec Hrx. unfold wait_for_ready.
  assert (Hfuel : (List.length skipped < S (List.length (rx w)))%nat).
  { rewrite Hrx, length_app. pose proof (lines_length skipped). lia. }
  revert Hfuel. generalize (S (List.length (rx w))) as fuel.
  revert w Hopen Hrx.
  induction skipped as [| l skipped IH]; intros w Hopen Hrx fuel Hfuel.
  - destruct fuel as [| fuel]; [cbn in Hfuel; lia |].
    cbn [flat_map app] in Hrx. cbn [wait_for_ready_loop]. unfold bind at 1.
    unfold read_until_async.
    rewrite Hopen, Hrx, (split_until_raw raw rest Hraw).
    unfold bind, decode. now rewrite Hdec.
  - destruct fuel as [| fuel]; [cbn in Hfuel; lia |].
    inversion Hskip as [| ? ? [Hl Hno] Hskip']; subst.
    cbn [flat_map] in Hrx. rewrite <- app_assoc in Hrx.
    rewrite (wait_loop_skip fuel l _ w Hopen Hl Hno Hrx).
    rewrite (IH Hskip' (World true _ _) eq_refl eq_refl fuel).
    + cbn [trace app map]. now rewrite <- app_assoc.
    + cbn [List.length] in Hfuel. lia.
Qed.

Lemma wait_for_ready_undecodable_witness :
  wait_for_ready
    (World true
       (wire (text "booting") ++ [0x80; 10]
        ++ wire (text "microMONET is ready for some stargazing!")) []) =
  (Exc UnicodeDecodeError,
   World true (wire (text "microMONET is ready for some stargazing!"))
     [ReadLine (wire (text "booting")); ReadLine [0x80; 10]]).
Proof.
  refine (wait_for_ready_undecodable [text "booting"] [0x80]
            (wire (text "microMONET is ready for some stargazing!"))
            (World true _ []) eq_refl _ _ eq_refl eq_refl).
  - repeat constructor; no_LF.
  - no_LF.
Defined.

(** ** What the methods leave alone *)

Lemma split_until_app (expected : N) (bs l r : bytes) :
  split_until expected bs = Some (l, r) -> bs = l ++ r.
Proof.
  revert l. induction bs as [| b bs IH]; intros l; [discriminate |].
  cbn [split_until]. destruct (b =? expected).
  - now intros [= <- <-].
  - destruct (split_until expected bs) as [[l' r'] |]; [| discriminate].
    intros [= <- <-]. cbn. f_equal. now apply IH.
Qed.

Lemma wait_loop_quiet (fuel : nat) :
  forall w : world,
    port_open (snd (wait_for_ready_loop fuel w)) = port_open w
    /\ (exists events,
          trace (snd (wait_for_ready_loop fuel w)) = trace w ++ events
          /\ forallb is_quiet events = true)
    /\ (exists taken, rx w = taken ++ rx (snd (wait_for_ready_loop fuel w))).
Proof.
  induction fuel as [| fuel IH]; intros w.
  - repeat split; [exists []; now rewrite app_nil_r | now exists [] ].
  - cbn [wait_for_ready_loop]. unfold bind, read_until_async.
    destruct (port_open w) eqn:Hopen.
    2: { cbn. rewrite Hopen.
         repeat split; [now exists [RefusedRead] | now exists [] ]. }
    destruct (split_until LF (rx w)) as [[line rest] |] eqn:E.
    2: { cbn. repeat split; [now exists [ReadBlocked (rx w)] |].
         exists (rx w). now rewrite app_nil_r. }
    apply split_until_app in E.
    unfold decode. destruct (utf8_decode line) as [s |].
    2: { cbn. repeat split; [now exists [ReadLine line] | now exists line]. }
    unfold ret. destruct (contains READY (strip s)).
    { cbn. repeat split; [| now exists line].
      exists [ReadLine line; Printed (text "Arduino is ready!")].
      split; [now rewrite <- app_assoc | reflexivity]. }
    destruct (IH (World true rest (trace w ++ [ReadLine line])))
      as (Hp & (events & Ht & Hq) & (taken & Hr)).
    split; [exact Hp |]. split.
    + exists (ReadLine line :: events).
      split; [| cbn [forallb is_quiet]; exact Hq].
      rewrite Ht. cbn [trace]. now rewrite <- app_assoc.
    + exists (line ++ taken). cbn [rx] in Hr. now rewrite E, Hr, <- app_assoc at 1.
Qed.

(** X6. On every world, whatever the peer sends and whether the port is
    open or not, [wait_for_ready] only reads and prints: it writes nothing
    to the port and does not close it. *)
Theorem wait_for_ready_quiet (w : world) :
  port_open (snd (wait_for_ready w)) = port_open w
  /\ exists events,
       trace (snd (wait_for_ready w)) = trace w ++ events
       /\ forallb is_quiet events = true.
Proof.
  destruct (wait_loop_quiet (S (List.length (rx w))) w) as (Hp & He & _).
  now split.
Qed.

Lemma later_refl (w : world) : later w w.
Proof. split; [exists []; now rewrite app_nil_r | now exists [] ]. Qed.

(** The port and the world after [send_command], case by case. *)
Lemma send_command_world (command : str) (w : world) :
  port_open (snd (send_command command w)) = port_open w
  /\ (exists events, trace (snd (send_command command w)) = trace w ++ events)
  /\ at_most_one_line w (snd (send_command command w)).
Proof.
  destruct (send_command command w) as [r w'] eqn:H. cbn [snd].
  revert H. unfold at_most_one_line, send_command, bind, encode.
  destruct (forallb is_scalar (command ++ [LF])).
  2: { intros [= _ <-]. split; [reflexivity |]. split; [| now left].
       exists []. now rewrite app_nil_r. }
  unfold ret at 1, write_async. destruct (port_open w) eqn:Hopen.
  2: { intros [= _ <-]. cbn. rewrite Hopen.
       split; [reflexivity |]. split; [| now left]. eexists. reflexivity. }
  unfold read_until_async, log. cbn [port_open rx trace]. rewrite Hopen.
  destruct (split_until LF (rx w)) as [[line rest] |] eqn:E.
  2: { intros [= _ <-]. cbn. split; [reflexivity |].
       split; [| right; right; now split].
       eexists. symmetry. apply app_assoc. }
  unfold decode.
  destruct (utf8_decode line); cbn; intros [= _ <-]; cbn;
    (split; [reflexivity |]; split; [| right; left; now exists line];
     eexists; symmetry; apply app_assoc).
Qed.

Lemma send_command_later (command : str) (w : world) :
  port_open (snd (send_command command w)) = port_open w
  /\ later w (snd (send_command command w)).
Proof.
  destruct (send_command_world command w) as (Hp & Ht & Hr).
  split; [exact Hp |]. split; [exact Ht |].
  destruct Hr as [-> | [(line & E) | (E & ->)] ].
  - now exists [].
  - exists line. exact (split_until_app _ _ _ _ E).
  - exists (rx w). now rewrite app_nil_r.
Qed.

Lemma bind_untouched {A B : Type} (c : M A) (k : A -> M B) (w : world) :
  untouched k -> snd ((a <- c ;; k a) w) = snd (c w).
Proof.
  intros Hk. unfold bind. destruct (c w) as [[a | e | |] w']; try reflexivity.
  apply Hk.
Qed.

Lemma py_float_untouched : untouched py_float.
Proof. intros s w. unfold py_float. now destruct (float_of_str s). Qed.

Lemma two_floats_untouched :
  untouched (fun m : list str =>
               altitude <- py_float (group m 1) ;;
               azimuth <- py_float (group m 2) ;;
               ret (altitude, azimuth)).
Proof.
  intros m w. unfold bind, py_float, ret, raise.
  destruct (float_of_str (group m 1)); [| reflexivity].
  now destruct (float_of_str (group m 2)).
Qed.

Lemma get_position_world (w : world) :
  snd (get_position w) = snd (send_command (text "GET_POS") w).
Proof.
  unfold get_position. apply bind_untouched. intros r w'.
  destruct (re_match RE_POSITION r) as [m |];
    [apply (two_floats_untouched m) |].
  destruct (re_match RE_ABORTED r) as [m |];
    [apply (two_floats_untouched m) | reflexivity].
Qed.

Lemma get_temperature_world (w : world) :
  snd (get_temperature w) = snd (send_command (text "GET_TEMP") w).
Proof.
  unfold get_temperature. apply bind_untouched. intros r w'.
  destruct (re_match RE_TEMPERATURE r); [apply py_float_untouched | reflexivity].
Qed.

Lemma get_humidity_world (w : world) :
  snd (get_humidity w) = snd (send_command (text "GET_HUMI") w).
Proof.
  unfold get_humidity. apply bind_untouched. intros r w'.
  destruct (re_match RE_HUMIDITY r); [apply py_float_untouched | reflexivity].
Qed.

Lemma dropped_world (command : str) (w : world) :
  snd ((send_command command ;; ret tt) w) = snd (send_command command w).
Proof. apply bind_untouched. now intros r w'. Qed.

Lemma set_speed_world (speed : Z) (w : world) :
  snd (set_speed speed w) = w
  \/ snd (set_speed speed w) =
       snd (send_command (text "SET_SPEED " ++ str_of_int speed) w).
Proof.
  unfold set_speed. destruct ((speed <? 1) || (speed >? 15))%Z.
  - now left.
  - right. apply dropped_world.
Qed.

(** X7. Only [close] changes the state of the port. Every other method,
    on every world, leaves an open port open and a closed port closed,
    only adds to the end of the trace, and only takes octets from the
    front of what the peer has sent; [close] leaves the port closed and
    takes nothing. *)
Theorem only_close_closes (w : world) :
  (forall command,
     port_open (snd (send_command command w)) = port_open w
     /\ later w (snd (send_command command w)))
  /\ (port_open (snd (wait_for_ready w)) = port_open w
      /\ later w (snd (wait_for_ready w)))
  /\ (port_open (snd (get_position w)) = port_open w
      /\ later w (snd (get_position w)))
  /\ (forall a z,
        port_open (snd (set_position a z w)) = port_open w
        /\ later w (snd (set_position a z w)))
  /\ (forall speed,
        port_open (snd (set_speed speed w)) = port_open w
        /\ later w (snd (set_speed speed w)))
  /\ (port_open (snd (led_on w)) = port_open w /\ later w (snd (led_on w)))
  /\ (port_open (snd (led_off w)) = port_open w /\ later w (snd (led_off w)))
  /\ (port_open (snd (ccd_on w)) = port_open w /\ later w (snd (ccd_on w)))
  /\ (port_open (snd (ccd_off w)) = port_open w /\ later w (snd (ccd_off w)))
  /\ (port_open (snd (get_temperature w)) = port_open w
      /\ later w (snd (get_temperature w)))
  /\ (port_open (snd (get_humidity w)) = port_open w
      /\ later w (snd (get_humidity w)))
  /\ (port_open (snd (abort_slew w)) = port_open w
      /\ later w (snd (abort_slew w)))
  /\ (port_open (snd (close w)) = false
      /\ later w (snd (close w)) /\ rx (snd (close w)) = rx w).
Proof.
  assert (Hdrop : forall command,
            port_open (snd ((send_command command ;; ret tt) w)) = port_open w
            /\ later w (snd ((send_command command ;; ret tt) w))).
  { intros command. rewrite dropped_world. apply send_command_later. }
  split; [intros command; apply send_command_later |].
  split.
  { destruct (wait_loop_quiet (S (List.length (rx w))) w)
      as (Hp & (events & Ht & _) & Hr).
    split; [exact Hp |]. split; [now exists events | exact Hr]. }
  split; [rewrite get_position_world; apply send_command_later |].
  split; [intros a z; apply Hdrop |].
  split.
  { intros speed. destruct (set_speed_world speed w) as [-> | ->];
      [split; [reflexivity | apply later_refl] | apply send_command_later]. }
  do 4 (split; [apply Hdrop |]).
  split; [rewrite get_temperature_world; apply send_command_later |].
  split; [rewrite get_humidity_world; apply send_command_later |].
  split; [apply Hdrop |].
  unfold close, serial_close. destruct (port_open w) eqn:E; cbn.
  - split; [reflexivity |]. split; [| reflexivity].
    split; [now eexists | now exists [] ].
  - split; [exact E |]. split; [apply later_refl | reflexivity].
Qed.

(** X8. One call, one line. [send_command] and each method built on it
    takes from the peer either nothing (the call failed before its read),
    or exactly the octets up to and including the first line feed, or,
    when no line feed comes, everything (and the call blocks): it never
    reads into the line after. *)
Theorem one_line_per_call (w : world) :
  (forall command, at_most_one_line w (snd (send_command command w)))
  /\ at_most_one_line w (snd (get_position w))
  /\ (forall a z, at_most_one_line w (snd (set_position a z w)))
  /\ (forall speed, at_most_one_line w (snd (set_speed speed w)))
  /\ at_most_one_line w (snd (led_on w))
  /\ at_most_one_line w (snd (led_off w))
  /\ at_most_one_line w (snd (ccd_on w))
  /\ at_most_one_line w (snd (ccd_off w))
  /\ at_most_one_line w (snd (get_temperature w))
  /\ at_most_one_line w (snd (get_humidity w))
  /\ at_most_one_line w (snd (abort_slew w)).
Proof.
  assert (Hsend : forall command,
            at_most_one_line w (snd (send_command command w)))
    by (intros command; apply send_command_world).
  assert (Hdrop : forall command,
            at_most_one_line w (snd ((send_command command ;; ret tt) w)))
    by (intros command; rewrite dropped_world; apply Hsend).
  split; [exact Hsend |].
  split; [rewrite get_position_world; apply Hsend |].
  split; [intros a z; apply Hdrop |].
  split.
  { intros speed. destruct (set_speed_world speed w) as [-> | ->];
      [now left | apply Hsend]. }
  do 4 (split; [apply Hdrop |]).
  split; [rewrite get_temperature_world; apply Hsend |].
  split; [rewrite get_humidity_world; apply Hsend |].
  apply Hdrop.
Qed.

(** ** The response *)

(** One step of the decoder: the octets [k] it takes, one to four of
    them, and the character [c] they stand for. A character below 128 is
    its own single octet, and every octet of a longer form is at least
    128. *)
Lemma utf8_decode_step (b0 : N) (t0 : bytes) (s : str) :
  utf8_decode (b0 :: t0) = Some s ->
  exists (c : N) (k rest : bytes),
    b0 :: t0 = k ++ rest
    /\ k <> []
    /\ (k = [c] /\ c < 0x80 \/ 0x80 <= c /\ forall b, In b k -> 0x80 <= b)
    /\ forall rest2,
         utf8_decode (k ++ rest2) = option_map (cons c) (utf8_decode rest2).
Proof.
  rewrite utf8_decode_cons.
  destruct (N.ltb_spec b0 0x80) as [H0 | H0].
  { intros _. exists b0, [b0], t0. repeat split; try discriminate.
    - now left.
    - intros rest2. cbn [app]. rewrite utf8_decode_cons.
      now rewrite (proj2 (N.ltb_lt b0 0x80)) by lia. }
  destruct ((0xC2 <=? b0) && (b0 <=? 0xDF)) eqn:T2.
  { destruct t0 as [| b1 t1]; [discriminate |].
    destruct (is_cont b1) eqn:C1; [| discriminate]. intros _.
    apply andb_true_iff in T2. destruct T2 as [L2 U2].
    apply N.leb_le in L2. apply N.leb_le in U2.
    pose proof C1 as C1'. unfold is_cont in C1'.
    apply andb_true_iff in C1'. destruct C1' as [L1 U1].
    apply N.leb_le in L1.
    exists ((b0 - 0xC0) * 64 + (b1 - 0x80)), [b0; b1], t1.
    repeat split; try discriminate.
    - right. split; [lia |]. intros b [<- | [<- | []]]; lia.
    - intros rest2. cbn [app]. rewrite utf8_decode_cons.
      rewrite (proj2 (N.ltb_ge b0 0x80)) by lia.
      rewrite (proj2 (N.leb_le 0xC2 b0)) by lia.
      rewrite (proj2 (N.leb_le b0 0xDF)) by lia. cbn [andb]. now rewrite C1. }
  destruct ((0xE0 <=? b0) && (b0 <=? 0xEF)) eqn:T3.
  { destruct t0 as [| b1 [| b2 t2]]; try discriminate. cbv zeta.
    destruct (is_cont b1 && is_cont b2
              && (0x800 <=? (b0 - 0xE0) * 4096 + (b1 - 0x80) * 64 + (b2 - 0x80))
              && is_scalar ((b0 - 0xE0) * 4096 + (b1 - 0x80) * 64 + (b2 - 0x80)))
      eqn:C; [| discriminate].
    intros _. pose proof C as C'. revert C.
    repeat (apply andb_true_iff in C'; destruct C' as [C' ?]).
    apply andb_true_iff in T3. destruct T3 as [L3 U3].
    apply N.leb_le in L3. apply N.leb_le in U3.
    unfold is_cont in *.
    repeat match goal with
           | H : _ && _ = true |- _ => apply andb_true_iff in H; destruct H
           | H : (_ <=? _) = true |- _ => apply N.leb_le in H
           end.
    intros C.
    exists ((b0 - 0xE0) * 4096 + (b1 - 0x80) * 64 + (b2 - 0x80)), [b0; b1; b2], t2.
    repeat split; try discriminate.
    - right. split; [lia |]. intros b [<- | [<- | [<- | []]]]; lia.
    - intros rest2. cbn [app]. rewrite utf8_decode_cons.
      rewrite (proj2 (N.ltb_ge b0 0x80)) by lia.
      rewrite T2. rewrite (proj2 (N.leb_le 0xE0 b0)) by lia.
      rewrite (proj2 (N.leb_le b0 0xEF)) by lia. cbn [andb]. cbv zeta.
      unfold is_cont. now rewrite C. }
  destruct ((0xF0 <=? b0) && (b0 <=? 0xF4)) eqn:T4; [| discriminate].
  destruct t0 as [| b1 [| b2 [| b3 t3]]]; try discriminate. cbv zeta.
  destruct (is_cont b1 && is_cont b2 && is_cont b3
            && (0x10000 <=? (b0 - 0xF0) * 262144 + (b1 - 0x80) * 4096
                            + (b2 - 0x80) * 64 + (b3 - 0x80))
            && ((b0 - 0xF0) * 262144 + (b1 - 0x80) * 4096
                + (b2 - 0x80) * 64 + (b3 - 0x80) <? 0x110000))
    eqn:C; [| discriminate].
  intros _. pose proof C as C'. revert C.
  repeat (apply andb_true_iff in C'; destruct C' as [C' ?]).
  apply andb_true_iff in T4. destruct T4 as [L4 U4].
  apply N.leb_le in L4. apply N.leb_le in U4.
  unfold is_cont in *.
  repeat match goal with
         | H : _ && _ = true |- _ => apply andb_true_iff in H; destruct H
         | H : (_ <=? _) = true |- _ => apply N.leb_le in H
         end.
  intros C.
  exists ((b0 - 0xF0) * 262144 + (b1 - 0x80) * 4096
          + (b2 - 0x80) * 64 + (b3 - 0x80)), [b0; b1; b2; b3], t3.
  repeat split; try discriminate.
  - right. split; [lia |]. intros b [<- | [<- | [<- | [<- | []]]]]; lia.
  - intros rest2. cbn [app]. rewrite utf8_decode_cons.
    rewrite (proj2 (N.ltb_ge b0 0x80)) by lia.
    rewrite T2, T3. rewrite (proj2 (N.leb_le 0xF0 b0)) by lia.
    rewrite (proj2 (N.leb_le b0 0xF4)) by lia. cbn [andb]. cbv zeta.
    unfold is_cont. now rewrite C.
Qed.

Lemma utf8_decode_steps (n : nat) :
  forall (bs : bytes) (s : str),
    (List.length bs <= n)%nat ->
    utf8_decode bs = Some s ->
    (forall c, c < 0x80 -> In c s -> In c bs)
    /\ forall raw, bs = raw ++ [LF] ->
         exists s0, s = s0 ++ [LF] /\ utf8_decode raw = Some s0.
Proof.
  induction n as [| n IH]; intros bs s Hlen H.
  - destruct bs; [| cbn in Hlen; lia]. cbn in H. injection H as <-.
    split; [intros c _ [] |]. intros [| b raw]; discriminate.
  - destruct bs as [| b0 t0].
    { cbn in H. injection H as <-.
      split; [intros c _ [] |]. intros [| b raw]; discriminate. }
    destruct (utf8_decode_step b0 t0 s H) as (c & k & rest & Hk & Hne & Hc & Hd).
    rewrite Hk in H, Hlen. rewrite (Hd rest) in H.
    destruct (utf8_decode rest) as [s' |] eqn:Hrest; [| discriminate].
    cbn [option_map] in H. injection H as <-.
    assert (Hshort : (List.length rest <= n)%nat).
    { rewrite length_app in Hlen. destruct k; [congruence | cbn in Hlen; lia]. }
    destruct (IH rest s' Hshort Hrest) as [IH1 IH2]. rewrite Hk. split.
    + intros a Ha [<- | Hin].
      * destruct Hc as [[-> _] | [Hc _]]; [now left | lia].
      * apply in_or_app. right. now apply IH1.
    + intros raw Hraw.
      destruct (rev rest) as [| last front] eqn:Hrev.
      { (* the line feed would be the last octet of [k] *)
        apply (f_equal (@rev N)) in Hrev. rewrite rev_involutive in Hrev.
        subst rest. rewrite app_nil_r in Hraw.
        destruct Hc as [[-> Hlt] | [_ Hbig]].
        - destruct raw as [| ? [| ? ?]]; try discriminate.
          cbn in Hraw. injection Hraw as ->. cbn in Hrest. injection Hrest as <-.
          exists []. split; [reflexivity | reflexivity].
        - assert (In LF k) by (rewrite Hraw; apply in_or_app; right; now left).
          specialize (Hbig LF H). unfold LF in Hbig. lia. }
      assert (Hrest' : rest = rev front ++ [last]).
      { apply (f_equal (@rev N)) in Hrev. now rewrite rev_involutive in Hrev. }
      assert (last = LF /\ raw = k ++ rev front) as [-> ->].
      { rewrite Hrest', app_assoc in Hraw.
        apply app_inj_tail in Hraw. destruct Hraw as [-> ->]. now split. }
      destruct (IH2 (rev front) Hrest') as (s0 & -> & Hs0).
      exists (c :: s0). split; [reflexivity |].
      now rewrite (Hd (rev front)), Hs0.
Qed.

(** A character below 128 of the decoded text is an octet of the input. *)
Lemma utf8_decode_ascii (bs : bytes) (s : str) (c : N) :
  utf8_decode bs = Some s -> c < 0x80 -> In c s -> In c bs.
Proof.
  intros H. exact (proj1 (utf8_decode_steps _ bs s (le_n _) H) c).
Qed.

(** The line feed that ends the octets ends the text. *)
Lemma utf8_decode_line (raw : bytes) (s : str) :
  utf8_decode (raw ++ [LF]) = Some s ->
  exists s0, s = s0 ++ [LF] /\ utf8_decode raw = Some s0.
Proof.
  intros H. exact (proj2 (utf8_decode_steps _ _ s (le_n _) H) raw eq_refl).
Qed.

Lemma split_until_shape (expected : N) (bs l r : bytes) :
  split_until expected bs = Some (l, r) ->
  exists raw, l = raw ++ [expected] /\ ~ In expected raw.
Proof.
  revert l r. induction bs as [| b bs IH]; intros l r; [discriminate |].
  cbn [split_until]. destruct (N.eqb_spec b expected) as [-> | Hb].
  - intros [= <- _]. exists []. split; [reflexivity | intros [] ].
  - destruct (split_until expected bs) as [[l' r'] |]; [| discriminate].
    intros [= <- _]. destruct (IH l' r' eq_refl) as (raw & -> & Hraw).
    exists (b :: raw). split; [reflexivity |]. intros [E | Hin]; auto.
Qed.

Lemma lstrip_suffix (s : str) :
  exists spaces, s = spaces ++ lstrip s /\ forallb is_space spaces = true.
Proof.
  induction s as [| c s (spaces & IH & Hs)]; [now exists [] |].
  cbn [lstrip]. destruct (is_space c) eqn:Hc.
  - exists (c :: spaces). cbn [forallb app]. rewrite Hc, Hs. split; [| reflexivity].
    now rewrite IH at 1.
  - now exists [].
Qed.

Lemma lstrip_head (s : str) (c : N) (t : str) :
  lstrip s = c :: t -> is_space c = false.
Proof.
  induction s as [| a s IH]; [discriminate |].
  cbn [lstrip]. destruct (is_space a) eqn:Ha; [exact IH |].
  now intros [= <- _].
Qed.

Lemma lstrip_fixed (s : str) :
  match s with c :: _ => is_space c = false | [] => True end -> lstrip s = s.
Proof. destruct s as [| c s]; [reflexivity |]. cbn. now intros ->. Qed.

Lemma in_lstrip (s : str) (c : N) : In c (lstrip s) -> In c s.
Proof.
  destruct (lstrip_suffix s) as (spaces & Hs & _). intros H.
  rewrite Hs. apply in_or_app. now right.
Qed.

Lemma in_strip (s : str) (c : N) : In c (strip s) -> In c s.
Proof.
  unfold strip, rstrip. intros H.
  apply in_lstrip. apply in_rev. apply in_lstrip. now apply in_rev.
Qed.

(** Stripping once is enough. *)
Lemma strip_strip (s : str) : strip (strip s) = strip s.
Proof.
  unfold strip. set (t := lstrip s).
  assert (Ht : match t with c :: _ => is_space c = false | [] => True end).
  { destruct t as [| c t'] eqn:E; [exact I |]. exact (lstrip_head s c t' E). }
  unfold rstrip at 2. destruct (lstrip_suffix (rev t)) as (spaces & Hs & _).
  set (u := lstrip (rev t)) in *.
  assert (Hu : match u with c :: _ => is_space c = false | [] => True end).
  { destruct u as [| c u'] eqn:E; [exact I |]. exact (lstrip_head (rev t) c u' E). }
  assert (Hhead : match rev u with c :: _ => is_space c = false | [] => True end).
  { apply (f_equal (@rev N)) in Hs. rewrite rev_involutive, rev_app_distr in Hs.
    destruct (rev u) as [| c ru]; [exact I |].
    rewrite Hs in Ht. exact Ht. }
  rewrite (lstrip_fixed (rev u) Hhead). unfold rstrip.
  now rewrite rev_involutive, (lstrip_fixed u Hu).
Qed.

(** X9. Whatever the octets the peer sends, the response [send_command]
    returns is one stripped line: it has no line feed in it, and no
    whitespace at either end (stripping it again changes nothing). *)
Theorem response_is_stripped_line (command : str) (w w' : world) (r : str) :
  send_command command w = (Ret r, w') ->
  strip r = r /\ ~ In LF r.
Proof.
  unfold send_command, bind, encode.
  destruct (forallb is_scalar (command ++ [LF])); [| discriminate].
  unfold ret at 1, write_async. destruct (port_open w) eqn:Hopen;
    [| discriminate].
  unfold read_until_async, log. cbn [port_open rx trace]. rewrite Hopen.
  destruct (split_until LF (rx w)) as [[line rest] |] eqn:E; [| discriminate].
  destruct (split_until_shape _ _ _ _ E) as (raw & -> & Hraw).
  unfold decode. destruct (utf8_decode (raw ++ [LF])) as [s |] eqn:D;
    [| discriminate].
  unfold ret. cbv beta iota. intros [= <- _].
  destruct (utf8_decode_line raw s D) as (s0 & -> & D0).
  rewrite (strip_app_space s0 LF eq_refl). split; [apply strip_strip |].
  intros Hin. apply in_strip in Hin. apply Hraw.
  exact (utf8_decode_ascii raw s0 LF D0 eq_refl Hin).
Qed.

Lemma response_is_stripped_line_witness :
  strip (text "OK") = text "OK" /\ ~ In LF (text "OK").
Proof.
  refine (response_is_stripped_line (text "LED_ON")
            (World true ([32; 9] ++ wire (text "OK" ++ [13; 32])) [])
            (World true [] [Wrote (wire (text "LED_ON"));
                            ReadLine ([32; 9] ++ wire (text "OK" ++ [13; 32]))])
            (text "OK") _).
  reflexivity.
Defined.

(** ** Where the number should be *)

Lemma not_one_field (prefix s a : str) (c : N) :
  digit_or_dot c = false -> ~ one_field prefix (prefix ++ c :: s) a.
Proof.
  intros Hc (tail & H & [Hne Ha] & _). apply app_inv_head in H.
  destruct a as [| d a]; [congruence |]. injection H as <- _.
  cbn [forallb] in Ha. now rewrite Hc in Ha.
Qed.

Lemma not_two_fields_first (prefix s a z : str) (c : N) :
  digit_or_dot c = false -> ~ two_fields prefix (prefix ++ c :: s) a z.
Proof.
  intros Hc (tail & H & [Hne Ha] & _). apply app_inv_head in H.
  destruct a as [| d a]; [congruence |]. injection H as <- _.
  cbn [forallb] in Ha. now rewrite Hc in Ha.
Qed.

Lemma not_two_fields_second (prefix a0 s a z : str) (c : N) :
  numeric a0 -> digit_or_dot c = false ->
  ~ two_fields prefix (prefix ++ a0 ++ text " AZ: " ++ c :: s) a z.
Proof.
  intros Ha0 Hc Hshape.
  assert (Hm : re_match (map Lit prefix ++ [NUMBER] ++ lit " AZ: " ++ [NUMBER])
                 (prefix ++ a0 ++ text " AZ: " ++ c :: s) = Some [a; z]).
  { apply re_match_two_fields. now exists a, z. }
  revert Hm. rewrite re_match_lit_app.
  change ([NUMBER] ++ lit " AZ: " ++ [NUMBER])
    with (Field digit_or_dot :: Lit 32 :: map Lit (text "AZ: ") ++ [NUMBER]).
  rewrite (re_match_field_lit digit_or_dot 32 _ _ eq_refl).
  destruct (numeric_run a0 _ Ha0 (space_ends_field (c :: s))) as (n & -> & -> & ->).
  change (Lit 32 :: map Lit (text "AZ: ") ++ [NUMBER])
    with (map Lit (text " AZ: ") ++ [NUMBER]).
  rewrite re_match_lit_app. unfold NUMBER. rewrite re_match_last_field.
  cbn [run_length]. now rewrite Hc.
Qed.

(** X10. Where a pattern expects its number, anything but a digit or a
    point (a minus sign, a letter) makes the response invalid: the three
    queries raise their own ValueError, which carries the response. *)
Theorem number_starts_with_digit (line s : str) (c : N) (rest : bytes)
    (w : world) :
  waiting line rest w ->
  digit_or_dot c = false ->
  (strip line = text "Temperature: " ++ c :: s ->
   get_temperature w =
     (Exc (ValueError (text "Invalid temperature response: " ++ strip line)),
      exchanged (text "GET_TEMP") line rest w))
  /\ (strip line = text "Humidity: " ++ c :: s ->
      get_humidity w =
        (Exc (ValueError (text "Invalid humidity response: " ++ strip line)),
         exchanged (text "GET_HUMI") line rest w))
  /\ (forall a0,
        strip line = text "ALT: " ++ c :: s
        \/ strip line = text "Aborted at ALT: " ++ c :: s
        \/ numeric a0
           /\ (strip line = text "ALT: " ++ a0 ++ text " AZ: " ++ c :: s
               \/ strip line =
                    text "Aborted at ALT: " ++ a0 ++ text " AZ: " ++ c :: s) ->
        get_position w =
          (Exc (ValueError (text "Invalid position response: " ++ strip line)),
           exchanged (text "GET_POS") line rest w)).
Proof.
  intros Hw Hc. split; [| split].
  - intros Hr.
    apply (proj2 (reading_fields (text "GET_TEMP") (text "Temperature: ")
                    "Invalid temperature response: " line rest w Hw eq_refl)).
    intros a. rewrite Hr. now apply not_one_field.
  - intros Hr.
    apply (proj2 (reading_fields (text "GET_HUMI") (text "Humidity: ")
                    "Invalid humidity response: " line rest w Hw eq_refl)).
    intros a. rewrite Hr. now apply not_one_field.
  - intros a0 Hr. apply get_position_invalid; [exact Hw | |];
      intros a z; destruct Hr as [-> | [-> | [Ha0 [-> | ->]]]];
      try (now apply not_two_fields_first);
      try (now apply not_two_fields_second);
      intros (tail & H & _); cbn in H; discriminate H.
Qed.

Lemma number_starts_with_digit_witness :
  get_temperature (World true (wire (text "Temperature: -5.0")) []) =
    (Exc (ValueError (text "Invalid temperature response: Temperature: -5.0")),
     World true [] [Wrote (wire (text "GET_TEMP"));
                    ReadLine (wire (text "Temperature: -5.0"))])
  /\ get_position (World true (wire (text "ALT: 45.0 AZ: -90.0")) []) =
    (Exc (ValueError (text "Invalid position response: ALT: 45.0 AZ: -90.0")),
     World true [] [Wrote (wire (text "GET_POS"));
                    ReadLine (wire (text "ALT: 45.0 AZ: -90.0"))]).
Proof.
  split.
  - refine (proj1 (number_starts_with_digit (text "Temperature: -5.0")
                     (text "5.0") 45 [] (World true _ []) _ eq_refl)
              eq_refl).
    is_waiting.
  - refine (proj2 (proj2 (number_starts_with_digit (text "ALT: 45.0 AZ: -90.0")
                            (text "90.0") 45 [] (World true _ []) _ eq_refl))
              (text "45.0") _).
    + is_waiting.
    + right. right. split; [split; [discriminate | reflexivity] | now left].
Defined.

(** ** A field that is no float *)

(** X11. Whenever a response matches a pattern and float() does not read
    a field, the query raises the ValueError of float(), which quotes
    that field: the one field of a reading, the first field of a position
    that float() does not read. The exchange has taken place. *)
Theorem float_error_quotes_field (line : str) (rest : bytes) (w : world) :
  waiting line rest w ->
  (forall a,
     one_field (text "Temperature: ") (strip line) a ->
     float_of_str a = None ->
     get_temperature w =
       (Exc (float_error a), exchanged (text "GET_TEMP") line rest w))
  /\ (forall a,
        one_field (text "Humidity: ") (strip line) a ->
        float_of_str a = None ->
        get_humidity w =
          (Exc (float_error a), exchanged (text "GET_HUMI") line rest w))
  /\ (forall prefix a z,
        prefix = text "ALT: " \/ prefix = text "Aborted at ALT: " ->
        two_fields prefix (strip line) a z ->
        (float_of_str a = None ->
         get_position w =
           (Exc (float_error a), exchanged (text "GET_POS") line rest w))
        /\ (float_of_str a <> None -> float_of_str z = None ->
            get_position w =
              (Exc (float_error z), exchanged (text "GET_POS") line rest w))).
Proof.
  intros Hw. split; [| split].
  - intros a Hshape Ha. unfold get_temperature.
    rewrite (bind_send_command (text "GET_TEMP") line rest w _ Hw eq_refl).
    assert (Hm : re_match RE_TEMPERATURE (strip line) = Some [a]).
    { apply (re_match_one_field (text "Temperature: ")). now exists a. }
    rewrite Hm. unfold group, py_float, float_error. cbn [pred nth].
    now rewrite Ha.
  - intros a Hshape Ha. unfold get_humidity.
    rewrite (bind_send_command (text "GET_HUMI") line rest w _ Hw eq_refl).
    assert (Hm : re_match RE_HUMIDITY (strip line) = Some [a]).
    { apply (re_match_one_field (text "Humidity: ")). now exists a. }
    rewrite Hm. unfold group, py_float, float_error. cbn [pred nth].
    now rewrite Ha.
  - intros prefix a z Hprefix Hshape.
    assert (Hm : re_match (map Lit prefix ++ [NUMBER] ++ lit " AZ: " ++ [NUMBER])
                   (strip line) = Some [a; z]).
    { apply re_match_two_fields. now exists a, z. }
    assert (Hrun : forall m : list str,
              (match re_match RE_POSITION (strip line) with
               | Some m' => m' = m
               | None => re_match RE_ABORTED (strip line) = Some m
               end) ->
              get_position w =
                (altitude <- py_float (group m 1) ;;
                 azimuth <- py_float (group m 2) ;;
                 ret (altitude, azimuth))
                  (exchanged (text "GET_POS") line rest w)).
    { intros m Hsel. unfold get_position.
      rewrite (bind_send_command (text "GET_POS") line rest w _ Hw eq_refl).
      destruct (re_match RE_POSITION (strip line)) as [m' |];
        [now subst m' | now rewrite Hsel]. }
    assert (Hsel : match re_match RE_POSITION (strip line) with
                   | Some m' => m' = [a; z]
                   | None => re_match RE_ABORTED (strip line) = Some [a; z]
                   end).
    { destruct Hprefix as [-> | ->].
      - change (re_match RE_POSITION (strip line) = Some [a; z]) in Hm.
        now rewrite Hm.
      - assert (E : re_match RE_POSITION (strip line) = None).
        { destruct Hshape as (tail & -> & _). apply not_aborted_first. }
        rewrite E. exact Hm. }
    rewrite (Hrun [a; z] Hsel). unfold bind, group, py_float, float_error.
    cbn [pred nth]. split.
    + intros Ha. now rewrite Ha.
    + intros Ha Hz. destruct (float_of_str a); [| congruence].
      unfold ret. now rewrite Hz.
Qed.

Lemma float_error_quotes_field_witness :
  get_humidity (World true (wire (text "Humidity: 4.5.6 %")) []) =
    (Exc (ValueError (text "could not convert string to float: '4.5.6'")),
     World true [] [Wrote (wire (text "GET_HUMI"));
                    ReadLine (wire (text "Humidity: 4.5.6 %"))])
  /\ get_position (World true (wire (text "ALT: 10.0 AZ: ..")) []) =
    (Exc (ValueError (text "could not convert string to float: '..'")),
     World true [] [Wrote (wire (text "GET_POS"));
                    ReadLine (wire (text "ALT: 10.0 AZ: .."))]).
Proof.
  split.
  - refine (proj1 (proj2 (float_error_quotes_field (text "Humidity: 4.5.6 %") []
                            (World true _ []) _))
              (text "4.5.6") _ eq_refl).
    + is_waiting.
    + exists (text " %"). repeat split; discriminate.
  - refine (proj2 (proj2 (proj2 (float_error_quotes_field
                                   (text "ALT: 10.0 AZ: ..") []
                                   (World true _ []) _))
                     (text "ALT: ") (text "10.0") (text "..")
                     (or_introl eq_refl) _) _ eq_refl).
    + is_waiting.
    + exists []. repeat split; discriminate.
    + discriminate.
Defined.

(** ** The sign of what is read *)

Lemma shr_1_nonneg (mrs : shr_record) :
  (0 <= shr_m mrs)%Z -> (0 <= shr_m (shr_1 mrs))%Z.
Proof.
  destruct mrs as [m r s]. destruct m as [| p | p]; cbn; try lia.
  destruct p; cbn; lia.
Qed.

Lemma iter_pos_keeps {A : Type} (P : A -> Prop) (f : A -> A) :
  (forall x, P x -> P (f x)) ->
  forall (p : positive) (x : A), P x -> P (iter_pos f p x).
Proof.
  intros Hf. induction p as [p IH | p IH |]; intros x Hx; cbn [iter_pos]; auto.
Qed.

Lemma shr_nonneg (mrs : shr_record) (e n : Z) :
  (0 <= shr_m mrs)%Z -> (0 <= shr_m (fst (shr mrs e n)))%Z.
Proof.
  intros H. unfold shr. destruct n as [| p | p]; cbn [fst]; try exact H.
  apply (iter_pos_keeps (fun r => (0 <= shr_m r)%Z)); [apply shr_1_nonneg | exact H].
Qed.

Lemma shr_fexp_nonneg (m e : Z) (l : location) :
  (0 <= m)%Z -> (0 <= shr_m (fst (shr_fexp prec emax m e l)))%Z.
Proof.
  intros H. unfold shr_fexp. apply shr_nonneg.
  destruct l as [| []]; exact H.
Qed.

Lemma round_nearest_even_nonneg (m : Z) (l : location) :
  (0 <= m)%Z -> (0 <= round_nearest_even m l)%Z.
Proof.
  intros H. unfold round_nearest_even.
  destruct l as [| []]; try destruct (Z.even m); lia.
Qed.

(** Rounding a mantissa that is not negative gives plus zero, a positive
    float or plus infinity. *)
Lemma binary_round_aux_not_negative (mx ex : Z) (lx : location) :
  (0 <= mx)%Z ->
  not_negative (binary_round_aux prec emax false mx ex lx) = true.
Proof.
  intros H. unfold binary_round_aux.
  pose proof (shr_fexp_nonneg mx ex lx H) as H1.
  destruct (shr_fexp prec emax mx ex lx) as [mrs' e']. cbn [fst] in H1.
  pose proof (shr_fexp_nonneg _ e' loc_Exact
                (round_nearest_even_nonneg _ (loc_of_shr_record mrs') H1)) as H2.
  destruct (shr_fexp prec emax _ e' loc_Exact) as [mrs'' e'']. cbn [fst] in H2.
  destruct (shr_m mrs'') as [| m | m]; [reflexivity | | lia].
  now destruct (e'' <=? emax - prec)%Z.
Qed.

Lemma float_of_decimal_not_negative (n : N) (e10 : Z) :
  not_negative (float_of_decimal false n e10) = true.
Proof.
  unfold float_of_decimal. destruct n as [| p]; [reflexivity |].
  cbv zeta. unfold SFdiv, SFdiv_core_binary. cbv zeta.
  set (m1 := Z.pos (p * Z.to_pos (10 ^ Z.max 0 e10))).
  set (m2 := Z.pos (Z.to_pos (10 ^ Z.max 0 (- e10)))).
  set (shift := (0 - 0 - _)%Z).
  set (m' := match shift with
             | Z0 => m1
             | Zpos _ => Z.shiftl m1 shift
             | Zneg _ => 0%Z
             end).
  assert (Hm' : (0 <= m')%Z).
  { unfold m'. destruct shift; try lia. apply Z.shiftl_nonneg. lia. }
  pose proof (Z.div_pos m' m2 Hm' ltac:(lia)) as Hq.
  unfold Z.div in Hq. destruct (Z.div_eucl m' m2) as [q r]. cbn [fst] in Hq.
  now apply binary_round_aux_not_negative.
Qed.

(** No decimal digit is a space, and the only ones below 128 are the
    digits of ASCII. *)
Lemma decimal_value_ascii (c d : N) :
  decimal_value c = Some d ->
  d < 10 /\ (c < 128 -> c = 48 + d) /\ is_space c = false.
Proof.
  unfold decimal_value.
  destruct (find _ DECIMAL_ZEROS) as [z |] eqn:E; [| discriminate].
  intros [= <-]. apply find_some in E. destruct E as [Hin Hz].
  apply andb_true_iff in Hz. destruct Hz as [Hlo Hhi].
  apply N.leb_le in Hlo. apply N.ltb_lt in Hhi.
  split; [lia |].
  unfold DECIMAL_ZEROS in Hin. cbn [In] in Hin.
  repeat (destruct Hin as [<- | Hin];
          [ split; [lia | unfold is_space; repeat settle_test;
                           repeat rewrite (proj2 (N.eqb_neq c _)) by lia;
                           reflexivity ] |]).
  destruct Hin.
Qed.

Lemma digit_to_plain (c : N) :
  digit_or_dot c = true -> plain (to_ascii_decimal c) = true.
Proof.
  unfold digit_or_dot, is_decimal. intros H.
  destruct (decimal_value c) as [d |] eqn:E.
  - destruct (decimal_value_ascii c d E) as (Hd & Hc & Hs).
    unfold to_ascii_decimal. rewrite E, Hs.
    destruct (N.ltb_spec c 128) as [Hlt | Hge].
    + rewrite (Hc Hlt). unfold plain, is_ascii_digit.
      now repeat settle_test.
    + unfold plain, is_ascii_digit. now repeat settle_test.
  - cbn [orb] in H. apply N.eqb_eq in H. now subst c.
Qed.

Lemma parse_plain_not_negative (s : str) (x : float) :
  forallb plain s = true -> parse_float s = Some x -> not_negative x = true.
Proof.
  intros Hp. unfold parse_float. rewrite (plain_no_sign _ Hp).
  rewrite (plain_not_word _ "inf" _ _ eq_refl ltac:(cbv; discriminate) Hp).
  rewrite (plain_not_word _ "infinity" _ _ eq_refl ltac:(cbv; discriminate) Hp).
  rewrite (plain_not_word _ "nan" _ _ eq_refl ltac:(cbv; discriminate) Hp).
  cbn [orb]. destruct (span is_ascii_digit s) as [ip s1].
  destruct (match s1 with
            | [] => ([], s1)
            | c :: t => if c =? FULL_STOP then span is_ascii_digit t else ([], s1)
            end) as [fp s2].
  destruct (ip ++ fp) as [| d ds]; [discriminate |].
  destruct (exponent_part s2) as [e |]; [| discriminate].
  intros [= <-]. apply float_of_decimal_not_negative.
Qed.

(** What float() reads in a numeric field is not negative and no NaN. *)
Lemma float_of_field_not_negative (a : str) (x : float) :
  forallb digit_or_dot a = true ->
  float_of_str a = Some x -> not_negative x = true.
Proof.
  intros Ha. unfold float_of_str.
  assert (Hp : forallb plain (map to_ascii_decimal a) = true).
  { apply forallb_forall. intros c Hc. apply in_map_iff in Hc.
    destruct Hc as (c0 & <- & Hc0). apply digit_to_plain.
    exact (proj1 (forallb_forall _ a) Ha c0 Hc0). }
  rewrite (plain_no_underscore _ Hp), (plain_c_strip _ Hp).
  now apply parse_plain_not_negative.
Qed.

Lemma py_float_field (a : str) (x : float) (w w' : world) :
  forallb digit_or_dot a = true ->
  py_float a w = (Ret x, w') -> not_negative x = true /\ w' = w.
Proof.
  intros Ha. unfold py_float.
  destruct (float_of_str a) as [y |] eqn:F; [| discriminate].
  intros [= <- <-]. split; [| reflexivity].
  now apply (float_of_field_not_negative a).
Qed.

Lemma reading_not_negative (command prefix : str) (invalid : string)
    (x : float) (w w' : world) :
  (response <- send_command command ;;
   match re_match (map Lit prefix ++ [NUMBER]) response with
   | Some m => py_float (group m 1)
   | None => raise (ValueError (text invalid ++ response))
   end) w = (Ret x, w') ->
  not_negative x = true.
Proof.
  unfold bind. destruct (send_command command w) as [[r | e | |] w1];
    try discriminate.
  destruct (re_match (map Lit prefix ++ [NUMBER]) r) as [g |] eqn:E;
    [| discriminate].
  apply re_match_one_field in E.
  destruct E as (a & (tail & _ & [_ Ha] & _) & ->).
  unfold group. cbn [pred nth]. intros H.
  exact (proj1 (py_float_field a x w1 w' Ha H)).
Qed.

Lemma two_floats_not_negative (prefix r : str) (g : list str)
    (x y : float) (w w' : world) :
  re_match (map Lit prefix ++ [NUMBER] ++ lit " AZ: " ++ [NUMBER]) r = Some g ->
  (altitude <- py_float (group g 1) ;;
   azimuth <- py_float (group g 2) ;;
   ret (altitude, azimuth)) w = (Ret (x, y), w') ->
  not_negative x = true /\ not_negative y = true.
Proof.
  intros E. apply re_match_two_fields in E.
  destruct E as (a & z & (tail & _ & [_ Ha] & [_ Hz] & _) & ->).
  unfold group. cbn [pred nth]. unfold bind.
  destruct (py_float a w) as [[x0 | e | |] w1] eqn:Fa; try discriminate.
  destruct (py_float z w1) as [[y0 | e | |] w2] eqn:Fz; try discriminate.
  unfold ret. intros [= <- <- <-].
  split; [exact (proj1 (py_float_field a x0 w w1 Ha Fa))
         | exact (proj1 (py_float_field z y0 w1 w2 Hz Fz))].
Qed.

(** X12. Whatever the peer sends, a number that [get_temperature],
    [get_humidity] or [get_position] returns is plus zero, a positive float
    or plus infinity: never a negative number, never minus zero, never a
    NaN. The patterns admit digits and points only, and float() reads no
    sign and no word in them. *)
Theorem readings_not_negative (w w' : world) :
  (forall x, get_temperature w = (Ret x, w') -> not_negative x = true)
  /\ (forall x, get_humidity w = (Ret x, w') -> not_negative x = true)
  /\ (forall x y,
        get_position w = (Ret (x, y), w') ->
        not_negative x = true /\ not_negative y = true).
Proof.
  split; [| split].
  - intros x.
    apply (reading_not_negative (text "GET_TEMP") (text "Temperature: ")
             "Invalid temperature response: ").
  - intros x.
    apply (reading_not_negative (text "GET_HUMI") (text "Humidity: ")
             "Invalid humidity response: ").
  - intros x y. unfold get_position, bind at 1.
    destruct (send_command (text "GET_POS") w) as [[r | e | |] w1];
      try discriminate.
    destruct (re_match RE_POSITION r) as [g |] eqn:E1.
    { now apply (two_floats_not_negative (text "ALT: ") r g). }
    destruct (re_match RE_ABORTED r) as [g |] eqn:E2; [| discriminate].
    now apply (two_floats_not_negative (text "Aborted at ALT: ") r g).
Qed.

Lemma readings_not_negative_witness :
  get_temperature (World true (wire (text "Temperature: 21.5 C")) []) =
    (Ret (decimal 215 1),
     World true [] [Wrote (wire (text "GET_TEMP"));
                    ReadLine (wire (text "Temperature: 21.5 C"))])
  /\ not_negative (decimal 215 1) = true.
Proof.
  assert (H : get_temperature (World true (wire (text "Temperature: 21.5 C")) []) =
    (Ret (decimal 215 1),
     World true [] [Wrote (wire (text "GET_TEMP"));
                    ReadLine (wire (text "Temperature: 21.5 C"))]))
    by (vm_compute; reflexivity).
  split; [exact H |].
  exact (proj1 (readings_not_negative _ _) _ H).
Defined.

(** ** A whole session *)

(** X13. A session as the menu program runs it: [wait_for_ready], then
    commands, then [close]. The lines before the announcement are skipped,
    the announcement is read, the i-th command gets the i-th line after
    it, and what the peer sent beyond that is still unread when the port
    is closed. *)
Theorem session_runs (skipped : list str) (ready : str)
    (commands lines : list str) (rest : bytes) (w : world) :
  port_open w = true ->
  Forall (fun l => is_line l /\ announces l = false) skipped ->
  is_line ready -> announces ready = true ->
  List.length commands = List.length lines ->
  Forall (fun c => forallb is_scalar c = true) commands ->
  Forall is_line lines ->
  rx w = flat_map wire skipped ++ wire ready ++ flat_map wire lines ++ rest ->
  (wait_for_ready ;;
   responses <- send_commands commands ;;
   close ;;
   ret responses) w =
    (Ret (map strip lines),
     World false rest
       (trace w ++ map (fun l => ReadLine (wire l)) (skipped ++ [ready])
                ++ [Printed (text "Arduino is ready!")]
                ++ exchanges commands lines ++ [ClosedPort])).
Proof.
  intros Hopen Hskip Hready Hyes Hlen Hcs Hls Hrx.
  unfold bind at 1. unfold wait_for_ready.
  rewrite (wait_loop_run skipped ready (flat_map wire lines ++ rest) _ w);
    try assumption.
  2:{ rewrite Hrx, length_app. pose proof (lines_length skipped). lia. }
  unfold bind at 1.
  rewrite (send_commands_run commands lines rest); try assumption;
    try reflexivity.
  unfold bind, close, serial_close, ret. cbn [port_open rx trace].
  do 2 f_equal. rewrite <- !app_assoc. reflexivity.
Qed.

Lemma session_runs_witness :
  (wait_for_ready ;;
   responses <- send_commands [text "LED_ON"; text "GET_TEMP"] ;;
   close ;;
   ret responses)
    (World true
       (wire (text "booting")
        ++ wire (text "microMONET is ready for some stargazing!")
        ++ wire (text "OK") ++ wire (text "Temperature: 25.0")
        ++ wire (text "late")) []) =
  (Ret [text "OK"; text "Temperature: 25.0"],
   World false (wire (text "late"))
     [ReadLine (wire (text "booting"));
      ReadLine (wire (text "microMONET is ready for some stargazing!"));
      Printed (text "Arduino is ready!");
      Wrote (wire (text "LED_ON")); ReadLine (wire (text "OK"));
      Wrote (wire (text "GET_TEMP")); ReadLine (wire (text "Temperature: 25.0"));
      ClosedPort]).
Proof.
  refine (session_runs [text "booting"]
            (text "microMONET is ready for some stargazing!")
            [text "LED_ON"; text "GET_TEMP"]
            [text "OK"; text "Temperature: 25.0"]
            (wire (text "late")) (World true _ [])
            eq_refl _ _ eq_refl eq_refl _ _ eq_refl).
  - repeat constructor; no_LF.
  - split; [reflexivity | no_LF].
  - repeat constructor.
  - repeat constructor; no_LF.
Defined.

(** ** Whitespace around a line *)

Lemma space_scalar (c : N) : is_space c = true -> is_scalar c = true.
Proof.
  unfold is_space, is_scalar. intros H.
  apply orb_true_iff. left. apply N.ltb_lt.
  repeat (apply orb_true_iff in H; destruct H as [H | H]);
    try (apply andb_true_iff in H; destruct H as [H1 H2];
         apply N.leb_le in H1, H2; lia);
    apply N.eqb_eq in H; lia.
Qed.

Lemma lstrip_spaces (before s : str) :
  forallb is_space before = true -> lstrip (before ++ s) = lstrip s.
Proof.
  induction before as [| c before IH]; [reflexivity |].
  cbn [forallb app lstrip]. intros H. apply andb_true_iff in H.
  destruct H as [-> H]. now apply IH.
Qed.

Lemma strip_spaces_after (s after : str) :
  forallb is_space after = true -> strip (s ++ after) = strip s.
Proof.
  induction after as [| c after IH] using rev_ind; intros H.
  - now rewrite app_nil_r.
  - rewrite forallb_app in H. apply andb_true_iff in H. destruct H as [Ha Hc].
    cbn [forallb] in Hc. rewrite andb_true_r in Hc.
    rewrite app_assoc, (strip_app_space _ c Hc). now apply IH.
Qed.

Lemma strip_padded (before line after : str) :
  forallb is_space before = true -> forallb is_space after = true ->
  strip (before ++ line ++ after) = strip line.
Proof.
  intros Hb Ha. rewrite app_assoc, (strip_spaces_after _ after Ha).
  unfold strip. now rewrite (lstrip_spaces before line Hb).
Qed.

Lemma padded_line (before line after : str) :
  is_line line ->
  forallb is_space before = true -> forallb is_space after = true ->
  ~ In LF before -> ~ In LF after ->
  is_line (before ++ line ++ after).
Proof.
  intros [Hs HLF] Hb Ha Hnb Hna.
  assert (Hsp : forall s, forallb is_space s = true -> forallb is_scalar s = true).
  { intros s H. apply forallb_forall. intros c Hc.
    apply space_scalar. exact (proj1 (forallb_forall _ s) H c Hc). }
  split.
  - rewrite !forallb_app, Hs, (Hsp _ Hb), (Hsp _ Ha). reflexivity.
  - rewrite !in_app_iff. tauto.
Qed.

(** What a query makes of a response does not depend on the world. *)
Lemma py_float_result (s : str) (w1 w2 : world) :
  fst (py_float s w1) = fst (py_float s w2).
Proof. unfold py_float. now destruct (float_of_str s). Qed.

Lemma two_floats_result (m : list str) (w1 w2 : world) :
  fst ((altitude <- py_float (group m 1) ;;
        azimuth <- py_float (group m 2) ;;
        ret (altitude, azimuth)) w1) =
  fst ((altitude <- py_float (group m 1) ;;
        azimuth <- py_float (group m 2) ;;
        ret (altitude, azimuth)) w2).
Proof.
  unfold bind, py_float, ret, raise.
  destruct (float_of_str (group m 1)); [| reflexivity].
  now destruct (float_of_str (group m 2)).
Qed.

(** X14. Whitespace around a response is of no consequence: when the
    peer pads a line with whitespace on either side (the carriage return
    of a line that ends in CR LF, blanks, tabs), [send_command] returns
    the same text, and [get_position], [get_temperature] and
    [get_humidity] return the same numbers or raise the same error. *)
Theorem padding_is_dropped (command before line after : str) (rest : bytes)
    (w : world) :
  waiting line rest w ->
  forallb is_scalar command = true ->
  forallb is_space before = true -> forallb is_space after = true ->
  ~ In LF before -> ~ In LF after ->
  let padded :=
    World true (wire (before ++ line ++ after) ++ rest) (trace w) in
  fst (send_command command padded) = Ret (strip line)
  /\ fst (send_command command padded) = fst (send_command command w)
  /\ fst (get_position padded) = fst (get_position w)
  /\ fst (get_temperature padded) = fst (get_temperature w)
  /\ fst (get_humidity padded) = fst (get_humidity w).
Proof.
  intros Hw Hcmd Hb Ha Hnb Hna padded.
  assert (Hp : waiting (before ++ line ++ after) rest padded).
  { split; [reflexivity | split; [| reflexivity]].
    apply padded_line; try assumption. apply Hw. }
  pose proof (strip_padded before line after Hb Ha) as Hstrip.
  split; [| split; [| split; [| split]]].
  - rewrite (send_command_waiting command _ rest padded Hp Hcmd).
    cbn [fst]. now rewrite Hstrip.
  - rewrite (send_command_waiting command _ rest padded Hp Hcmd).
    rewrite (send_command_waiting command _ rest w Hw Hcmd).
    cbn [fst]. now rewrite Hstrip.
  - unfold get_position.
    rewrite (bind_send_command (text "GET_POS") _ rest padded _ Hp eq_refl).
    rewrite (bind_send_command (text "GET_POS") _ rest w _ Hw eq_refl).
    rewrite Hstrip.
    destruct (re_match RE_POSITION (strip line)) as [m |];
      [apply two_floats_result |].
    destruct (re_match RE_ABORTED (strip line)) as [m |];
      [apply two_floats_result | reflexivity].
  - unfold get_temperature.
    rewrite (bind_send_command (text "GET_TEMP") _ rest padded _ Hp eq_refl).
    rewrite (bind_send_command (text "GET_TEMP") _ rest w _ Hw eq_refl).
    rewrite Hstrip.
    destruct (re_match RE_TEMPERATURE (strip line)) as [m |];
      [apply py_float_result | reflexivity].
  - unfold get_humidity.
    rewrite (bind_send_command (text "GET_HUMI") _ rest padded _ Hp eq_refl).
    rewrite (bind_send_command (text "GET_HUMI") _ rest w _ Hw eq_refl).
    rewrite Hstrip.
    destruct (re_match RE_HUMIDITY (strip line)) as [m |];
      [apply py_float_result | reflexivity].
Qed.

Lemma padding_is_dropped_witness :
  fst (get_temperature
         (World true (wire ([9] ++ text "Temperature: 25.0" ++ [32; 13])) [])) =
  fst (get_temperature (World true (wire (text "Temperature: 25.0")) [])).
Proof.
  refine (proj1 (proj2 (proj2 (proj2
            (padding_is_dropped (text "GET_TEMP") [9] (text "Temperature: 25.0")
               [32; 13] [] (World true (wire (text "Temperature: 25.0")) [])
               _ eq_refl eq_refl eq_refl _ _))))).
  - is_waiting.
  - no_LF.
  - no_LF.
Defined.

(** ** The phrase and the whitespace around it *)

Lemma startswith_spec (s p : str) :
  startswith s p = true <-> exists b, s = p ++ b.
Proof.
  split.
  - intros H. exists (skipn (List.length p) s). now apply startswith_split.
  - intros [b ->]. apply startswith_app.
Qed.

Lemma contains_spec (p s : str) :
  contains p s = true <-> exists a b, s = a ++ p ++ b.
Proof.
  induction s as [| c s IH].
  - cbn [contains]. rewrite orb_false_r, startswith_spec. split.
    + intros [b H]. now exists [], b.
    + intros (a & b & H). destruct a as [| x a]; [now exists b | discriminate].
  - cbn [contains]. rewrite orb_true_iff, startswith_spec, IH. split.
    + intros [[b H] | (a & b & H)].
      * now exists [], b.
      * exists (c :: a), b. now rewrite H.
    + intros (a & b & H). destruct a as [| x a].
      * left. now exists b.
      * right. injection H as _ H. now exists a, b.
Qed.

Lemma contains_rev (p s : str) : contains (rev p) (rev s) = contains p s.
Proof.
  apply eq_iff_eq_true. rewrite !contains_spec. split.
  - intros (a & b & H). exists (rev b), (rev a).
    apply (f_equal (@rev N)) in H.
    now rewrite rev_involutive, !rev_app_distr, rev_involutive, <- app_assoc in H.
  - intros (a & b & ->). exists (rev b), (rev a).
    now rewrite !rev_app_distr, <- app_assoc.
Qed.

(** A text that starts with no space is found in what [lstrip] leaves
    whenever it is found at all; likewise at the other end. *)
Lemma contains_lstrip (a : N) (p s : str) :
  is_space a = false -> contains (a :: p) (lstrip s) = contains (a :: p) s.
Proof.
  intros Ha. induction s as [| c s IH]; [reflexivity |].
  cbn [lstrip]. destruct (is_space c) eqn:Hc; [| reflexivity].
  rewrite IH. cbn [contains startswith].
  destruct (N.eqb_spec a c) as [-> | _]; [congruence | reflexivity].
Qed.

Lemma contains_rstrip (a : N) (p s : str) :
  is_space a = false ->
  contains (p ++ [a]) (rstrip s) = contains (p ++ [a]) s.
Proof.
  intros Ha. unfold rstrip.
  rewrite <- (contains_rev (p ++ [a])), rev_involutive, rev_app_distr.
  cbn [rev app]. rewrite (contains_lstrip a (rev p) (rev s) Ha).
  rewrite <- (contains_rev (p ++ [a]) s), rev_app_distr. reflexivity.
Qed.

(** The test of [wait_for_ready] on the stripped line is the test on the
    line as it came. *)
Lemma announces_raw (l : str) : announces l = contains READY l.
Proof.
  unfold announces, strip.
  change READY with
    (text "microMONET is ready for some stargazing" ++ [33]) at 1.
  rewrite (contains_rstrip 33 _ _ eq_refl).
  change (text "microMONET is ready for some stargazing" ++ [33])
    with (109 :: text "icroMONET is ready for some stargazing!").
  rewrite (contains_lstrip 109 _ _ eq_refl). reflexivity.
Qed.

(** X15. Stripping decides nothing in [wait_for_ready]: the phrase
    starts and ends with no whitespace, so the loop ends at the first line
    that has the phrase anywhere in it as it came from the port, also
    between other text, and skips the lines that have not. *)
Theorem wait_for_ready_raw_phrase (skipped : list str) (before after : str)
    (rest : bytes) (w : world) :
  port_open w = true ->
  Forall (fun l => is_line l /\ contains READY l = false) skipped ->
  is_line (before ++ READY ++ after) ->
  rx w = flat_map wire skipped ++ wire (before ++ READY ++ after) ++ rest ->
  wait_for_ready w =
    (Ret tt,
     World true rest
       (trace w ++ map (fun l => ReadLine (wire l))
                     (skipped ++ [before ++ READY ++ after])
                ++ [Printed (text "Arduino is ready!")])).
Proof.
  intros Hopen Hskip Hline Hrx. unfold wait_for_ready.
  apply wait_loop_run; try assumption.
  - rewrite Hrx, length_app. pose proof (lines_length skipped). lia.
  - eapply Forall_impl; [| exact Hskip].
    intros l [Hl Hno]. split; [exact Hl |]. now rewrite announces_raw.
  - rewrite announces_raw. apply contains_spec. now exists before, after.
Qed.

Lemma wait_for_ready_raw_phrase_witness :
  wait_for_ready
    (World true
       (wire (text "microMONET is booting")
        ++ wire (text "[info] microMONET is ready for some stargazing! (v2)")
        ++ wire (text "late")) []) =
  (Ret tt,
   World true (wire (text "late"))
     [ReadLine (wire (text "microMONET is booting"));
      ReadLine (wire (text "[info] microMONET is ready for some stargazing! (v2)"));
      Printed (text "Arduino is ready!")]).
Proof.
  refine (wait_for_ready_raw_phrase [text "microMONET is booting"]
            (text "[info] ") (text " (v2)") (wire (text "late"))
            (World true _ []) eq_refl _ _ eq_refl).
  - repeat constructor; no_LF.
  - split; [reflexivity | no_LF].
Defined.
